(** * pid-autotune: the kettle model and the simulation driver

    A shallow embedding of [kettle.py] and of the stepping code of [sim.py].

    Numbers.  The sources are embedded twice.

    In the first embedding every Python [float] is an exact rational ([Q]):
    the arithmetic operators are the exact ones and equality of quantities is
    [Qeq] ([==]).  Python's [/] raises [ZeroDivisionError] on a zero divisor
    ([fdiv]); rounding, overflow, NaN and infinities are not part of it.  The
    general theorems are proved over this embedding, and they are stated so
    that they do not lean on exactness: a result is given by the expression
    the code evaluates, order statements are not strict, and what holds of a
    run is stated of a run that has returned.

    In the second embedding ([B64]) every [float] is a binary64 value with
    the IEEE-754 operations, [math.pow], [round] and [deque(maxlen=...)]
    raise [OverflowError] as in Python, and the feedback loop compares the
    accumulated [timestamp] as the code does.  It evaluates the program on
    concrete inputs, and shows where an identity of exact arithmetic is not
    one of the program.

    Effects.  Exceptions are threaded through a small error monad ([result]);
    the two [while] loops of the driver take a fuel argument and answer
    [None] when it is exhausted, [Some r] when the loop ends with [r].  Mutable objects (the kettle, the deque,
    the four record lists, the controller) are passed explicitly.

    The controllers ([pid.PIDArduino], [autotune.PIDAutotune]) are not part of
    the modelled sources: the driver is generic over the two capabilities it
    uses ([FeedbackController], [AutotuneController]). *)

From Stdlib Require Import String QArith Qround ZArith List Lia Lqa Bool Floats.
Import ListNotations.
Open Scope Q_scope.

#[local] Set Warnings "-inexact-float".

(** ** Exceptions and results *)

(** The exceptions of the rational embedding.  [OverflowError] and
    [ValueError] need values that no rational is: they are in [B64.exn]. *)
Inductive exn : Type :=
| ZeroDivisionError
| IndexError.

Inductive result (A : Type) : Type :=
| Ret (a : A)
| Raise (e : exn).

Arguments Ret {A} a.
Arguments Raise {A} e.

Definition bind {A B : Type} (m : result A) (f : A -> result B) : result B :=
  match m with
  | Ret a => f a
  | Raise e => Raise e
  end.

Notation "x <- m ;; k" := (bind m (fun x => k))
  (at level 61, m at next level, right associativity).
Notation "' pat <- m ;; k" := (bind m (fun x => match x with pat => k end))
  (at level 61, pat pattern, m at next level, right associativity).

(** [for x in xs: f(x)] where each [f(x)] replaces [x] by its updated state. *)
Fixpoint mapM {A B : Type} (f : A -> result B) (xs : list A) : result (list B) :=
  match xs with
  | [] => Ret []
  | x :: xs' =>
      y <- f x ;;
      ys <- mapM f xs' ;;
      Ret (y :: ys)
  end.

(** ** Python numerics *)

(** [x / y] on floats: raises on a zero divisor. *)
Definition fdiv (x y : Q) : result Q :=
  if Qeq_bool y 0 then Raise ZeroDivisionError else Ret (x / y).

(** [math.pi], the double nearest to pi, as the rational it denotes. *)
Definition math_pi : Q := 884279719003555 # 281474976710656.

(** [math.pow(x, n)] for a natural exponent. *)
Definition math_pow (x : Q) (n : Z) : Q := x ^ n.

(** [max(a, b)] returns [b] only when [b > a]; [min(a, b)] returns [b] only
    when [b < a]. *)
Definition py_max (a b : Q) : Q :=
  match Qcompare a b with Lt => b | _ => a end.

Definition py_min (a b : Q) : Q :=
  match Qcompare a b with Gt => b | _ => a end.

(** [round(x)] with one argument: nearest integer, ties to the even one. *)
Definition py_round (x : Q) : Z :=
  let f := Qfloor x in
  match Qcompare (x - inject_Z f) (1 # 2) with
  | Lt => f
  | Gt => (f + 1)%Z
  | Eq => if Z.even f then f else (f + 1)%Z
  end.

(** [n * [x]] *)
Definition list_mul {A : Type} (n : nat) (l : list A) : list A :=
  concat (repeat l n).

(** ** [collections.deque] with a [maxlen] *)

Record deque : Type := mkDeque {
  maxlen : nat;
  items : list Q
}.

Definition deque_new (n : nat) : deque := mkDeque n [].

(** [append]: add on the right; when the bound is exceeded drop on the left. *)
Definition deque_append (d : deque) (x : Q) : deque :=
  let l := items d ++ [x] in
  mkDeque (maxlen d) (if (maxlen d <? length l)%nat then tl l else l).

Definition deque_extend (d : deque) (xs : list Q) : deque :=
  fold_left deque_append xs d.

(** [d[i]] for [i >= 0] *)
Definition deque_getitem (d : deque) (i : nat) : result Q :=
  match nth_error (items d) i with
  | Some x => Ret x
  | None => Raise IndexError
  end.

(** ** kettle.py *)

Module Kettle.

Definition DENSITY_WATER : Q := 997 # 1000.
Definition SPECIFIC_HEAT_CAP_WATER : Q := 4200 # 1000.
Definition SPECIFIC_HEAT_CAP_BRASS : Q := 400 # 1000.
Definition THERMAL_CONDUCTIVITY_BRASS : Q := 96.
Definition THERMAL_CONDUCTIVITY_KETTLE : Q := THERMAL_CONDUCTIVITY_BRASS * (5 # 10).

Record t : Type := mk {
  _waterMass : Q;
  _temp : Q;
  _surface : Q;
  _kettleMass : Q
}.

(** [self._temp = v] *)
Definition set_temp (self : t) (v : Q) : t :=
  mk (_waterMass self) v (_surface self) (_kettleMass self).

(** [Kettle(diameter, volume, temp, kettleMass)].  The divisions by the
    literals [2] and [10000] cannot raise. *)
Definition __init__ (diameter volume temp kettleMass : Q) : result t :=
  let waterMass := volume * DENSITY_WATER in
  let radius := diameter / 2 in
  height <- fdiv (volume * 1000) (math_pi * math_pow radius 2) ;;
  let surface :=
    (2 * math_pi * math_pow radius 2 + 2 * math_pi * radius * height) / 10000 in
  Ret (mk waterMass temp surface kettleMass).

Definition temperature (self : t) : Q := _temp self.

(** The denominator of [_get_deltaT]. *)
Definition thermal_mass (self : t) : Q :=
  SPECIFIC_HEAT_CAP_WATER * _waterMass self
  + SPECIFIC_HEAT_CAP_BRASS * _kettleMass self.

Definition _get_deltaT (self : t) (power duration : Q) : result Q :=
  fdiv (power * duration)
       (SPECIFIC_HEAT_CAP_WATER * _waterMass self
        + SPECIFIC_HEAT_CAP_BRASS * _kettleMass self).

Definition default_efficiency : Q := 98 # 100.

Definition heat (self : t) (power duration efficiency : Q) : result (t * Q) :=
  dT <- _get_deltaT self (power * efficiency) duration ;;
  let self' := set_temp self (_temp self + dT) in
  Ret (self', _temp self').

Definition cool (self : t) (duration ambient_temp heat_loss_factor : Q)
  : result (t * Q) :=
  power <- fdiv (THERMAL_CONDUCTIVITY_KETTLE * _surface self
                 * (_temp self - ambient_temp)) duration ;;
  let power := power / 1000 in
  dT <- _get_deltaT self power duration ;;
  let self' := set_temp self (_temp self - dT * heat_loss_factor) in
  Ret (self', _temp self').

(** Two kettles that denote the same quantities. *)
Definition equiv (a b : t) : Prop :=
  _waterMass a == _waterMass b /\ _temp a == _temp b /\
  _surface a == _surface b /\ _kettleMass a == _kettleMass b.

(** The invariants of a vessel state. *)
Definition valid (self : t) : Prop :=
  0 < _waterMass self /\ 0 <= _kettleMass self /\ 0 < _surface self.

End Kettle.

(** Two outcomes of a kettle operation agree: the same exception, or two
    returns of equivalent kettles and equal values. *)
Definition outcome_equiv (a b : result (Kettle.t * Q)) : Prop :=
  match a, b with
  | Ret (ka, va), Ret (kb, vb) => Kettle.equiv ka kb /\ va == vb
  | Raise ea, Raise eb => ea = eb
  | _, _ => False
  end.

(** ** sim.py: configuration, controllers, run records *)

(** The values of [args] the stepping code reads.  [pid] holds the
    [(name, kp, ki, kd)] tuples with the gains already converted by
    [float]; [interval] is an [int]. *)
Record Args : Type := mkArgs {
  pid : list (string * Q * Q * Q);
  kettle_temp : Q;
  setpoint : Q;
  ambient_temp : Q;
  interval : Z;
  delay : Q;
  sampletime : Q;
  volume : Q;
  diameter : Q;
  kettle_mass : Q;
  heater_power : Q;
  heat_loss_factor : Q;
  out_min : Q;
  out_max : Q
}.

(** The capability of [pid.PIDArduino]: its constructor and [calc].  The
    controller reads the time through the closure [lambda: timestamp]; the
    value of [timestamp] at the call is the [now] argument (the second one). *)
Class FeedbackController (C : Type) : Type := {
  PIDArduino : Q -> Q -> Q -> Q -> Q -> Q -> C;
  calc : C -> Q -> Q -> Q -> C * Q
}.

(** The capability of [autotune.PIDAutotune]: constructor
    [(setpoint, out_step, sampletime, out_min, out_max)], [run] (with [now]
    as for [calc]) and the [output] property. *)
Class AutotuneController (C : Type) : Type := {
  PIDAutotune : Q -> Q -> Q -> Q -> Q -> C;
  run : C -> Q -> Q -> C * bool;
  output : C -> Q
}.

(** The [Simulation] named tuple. *)
Record Simulation (S : Type) : Type := mkSim {
  name : string;
  sut : S;
  kettle : Kettle.t;
  delayed_temps : deque;
  timestamps : list Q;
  heater_temps : list Q;
  sensor_temps : list Q;
  outputs : list Q
}.

Arguments mkSim {S}.
Arguments name {S}.
Arguments sut {S}.
Arguments kettle {S}.
Arguments delayed_temps {S}.
Arguments timestamps {S}.
Arguments heater_temps {S}.
Arguments sensor_temps {S}.
Arguments outputs {S}.

Definition set_sut {S : Type} (sim : Simulation S) (c : S) : Simulation S :=
  mkSim (name sim) c (kettle sim) (delayed_temps sim) (timestamps sim)
        (heater_temps sim) (sensor_temps sim) (outputs sim).

Definition set_delayed_temps {S : Type} (sim : Simulation S) (d : deque)
  : Simulation S :=
  mkSim (name sim) (sut sim) (kettle sim) d (timestamps sim)
        (heater_temps sim) (sensor_temps sim) (outputs sim).

(** [sim_update(sim, timestamp, output, args)] *)
Definition sim_update {S : Type} (sim : Simulation S) (timestamp output : Q)
    (args : Args) : result (Simulation S) :=
  level <- fdiv output (out_max args) ;;
  '(k1, _) <- Kettle.heat (kettle sim) (heater_power args * level)
                (sampletime args) Kettle.default_efficiency ;;
  '(k2, _) <- Kettle.cool k1 (sampletime args) (ambient_temp args)
                (heat_loss_factor args) ;;
  let dq := deque_append (delayed_temps sim) (Kettle.temperature k2) in
  front <- deque_getitem dq 0 ;;
  Ret (mkSim (name sim) (sut sim) k2 dq
         (timestamps sim ++ [timestamp])
         (heater_temps sim ++ [Kettle.temperature k2])
         (sensor_temps sim ++ [front])
         (outputs sim ++ [output])).

(** [max(1, round(args.delay / args.sampletime))] *)
Definition delayed_temps_len (args : Args) : result nat :=
  q <- fdiv (delay args) (sampletime args) ;;
  Ret (Z.to_nat (Z.max 1 (py_round q))).

(** *** simulate_pid *)

Section Feedback.
Context {C : Type} `{FeedbackController C}.

(** The set-up before the [while] loop: one run per tuple of [args.pid],
    then the deque of each run filled with the initial temperature. *)
Definition simulate_pid_init (args : Args) : result (list (Simulation C)) :=
  n <- delayed_temps_len args ;;
  sims <- mapM (fun p : string * Q * Q * Q =>
                  let '(nm, kp, ki, kd) := p in
                  k <- Kettle.__init__ (diameter args) (volume args)
                         (kettle_temp args) (kettle_mass args) ;;
                  Ret (mkSim nm
                         (PIDArduino (sampletime args) kp ki kd
                                     (out_min args) (out_max args))
                         k (deque_new n) [] [] [] []))
               (pid args) ;;
  Ret (map (fun sim =>
              set_delayed_temps sim
                (deque_extend (delayed_temps sim)
                   (list_mul (maxlen (delayed_temps sim)) [kettle_temp args])))
           sims).

(** The body of [for sim in sims] for one run. *)
Definition pid_body (args : Args) (timestamp : Q) (sim : Simulation C)
  : result (Simulation C) :=
  observed <- deque_getitem (delayed_temps sim) 0 ;;
  let '(c, output) := calc (sut sim) timestamp observed (setpoint args) in
  let output := py_max output (out_min args) in
  let output := py_min output (out_max args) in
  sim_update (set_sut sim c) timestamp output args.

(** [while timestamp < (args.interval * 60): ...] *)
Fixpoint simulate_pid_loop (fuel : nat) (args : Args) (timestamp : Q)
    (sims : list (Simulation C)) : option (result (list (Simulation C))) :=
  if Qlt_le_dec timestamp (inject_Z (interval args * 60)) then
    match fuel with
    | O => None
    | S fuel' =>
        let timestamp := timestamp + sampletime args in
        match mapM (pid_body args timestamp) sims with
        | Ret sims' => simulate_pid_loop fuel' args timestamp sims'
        | Raise e => Some (Raise e)
        end
    end
  else Some (Ret sims).

(** The runs as they are handed to the export and the plot. *)
Definition simulate_pid (fuel : nat) (args : Args)
  : option (result (list (Simulation C))) :=
  match simulate_pid_init args with
  | Ret sims => simulate_pid_loop fuel args 0 sims
  | Raise e => Some (Raise e)
  end.

End Feedback.

(** *** simulate_autotune *)

Section Autotune.
Context {A : Type} `{AutotuneController A}.

Definition simulate_autotune_init (args : Args) : result (Simulation A) :=
  q <- fdiv (delay args) (sampletime args) ;;
  let maxlen := Z.to_nat (Z.max 1 (py_round q)) in
  let delayed_temps :=
    deque_extend (deque_new maxlen) (list_mul maxlen [kettle_temp args]) in
  let tuner := PIDAutotune (setpoint args) 100 (sampletime args)
                           (out_min args) (out_max args) in
  k <- Kettle.__init__ (diameter args) (volume args)
         (kettle_temp args) (kettle_mass args) ;;
  Ret (mkSim "autotune"%string tuner k delayed_temps [] [] [] []).

(** The loop test [sim.sut.run(sim.delayed_temps[0])]: the updated run and
    the completion flag. *)
Definition autotune_test (timestamp : Q) (sim : Simulation A)
  : result (Simulation A * bool) :=
  observed <- deque_getitem (delayed_temps sim) 0 ;;
  let '(c, done) := run (sut sim) timestamp observed in
  Ret (set_sut sim c, done).

(** The loop body: the new [timestamp] and the updated run. *)
Definition autotune_body (args : Args) (timestamp : Q) (sim : Simulation A)
  : result (Q * Simulation A) :=
  let timestamp := timestamp + sampletime args in
  sim' <- sim_update sim timestamp (output (sut sim)) args ;;
  Ret (timestamp, sim').

(** [while not sim.sut.run(sim.delayed_temps[0]): ...] *)
Fixpoint simulate_autotune_loop (fuel : nat) (args : Args) (timestamp : Q)
    (sim : Simulation A) : option (result (Q * Simulation A)) :=
  match fuel with
  | O => None
  | S fuel' =>
      match autotune_test timestamp sim with
      | Raise e => Some (Raise e)
      | Ret (sim1, true) => Some (Ret (timestamp, sim1))
      | Ret (sim1, false) =>
          match autotune_body args timestamp sim1 with
          | Raise e => Some (Raise e)
          | Ret (timestamp', sim2) =>
              simulate_autotune_loop fuel' args timestamp' sim2
          end
      end
  end.

(** The final [timestamp] and the run as handed to the export and the plot. *)
Definition simulate_autotune (fuel : nat) (args : Args)
  : option (result (Q * Simulation A)) :=
  match simulate_autotune_init args with
  | Ret sim => simulate_autotune_loop fuel args 0 sim
  | Raise e => Some (Raise e)
  end.

End Autotune.

(** ** Concrete configurations and controllers used for evaluation *)

(** The defaults of the command line: 70 l, 50 cm, 5 kg, 6 kW, 40 degrees,
    ambient 20, setpoint 45, delay 15 s, sample time 5 s, outputs in
    [0, 100]; a single run and an interval of one minute. *)
Definition scenario_args : Args :=
  mkArgs [("const50"%string, 0, 0, 0)] 40 45 20 1 15 5 70 50 5 6 1 0 100.

(** A feedback controller that answers a constant, whatever it observes. *)
Record ConstPID : Type := mkConstPID { const_level : Q }.

Definition ConstPID_feedback (level : Q) : FeedbackController ConstPID := {|
  PIDArduino := fun _ _ _ _ _ _ => mkConstPID level;
  calc := fun c _ _ _ => (c, const_level c)
|}.

(** An auto-tuner that holds a constant output and completes after a given
    number of calls of [run]. *)
Record CountdownTuner : Type := mkCountdown {
  tuner_left : nat;
  tuner_output : Q
}.

Definition CountdownTuner_autotune (steps : nat) (level : Q)
  : AutotuneController CountdownTuner := {|
  PIDAutotune := fun _ _ _ _ _ => mkCountdown steps level;
  run := fun c _ _ =>
    match tuner_left c with
    | O => (c, true)
    | S n => (mkCountdown n (tuner_output c), false)
    end;
  output := tuner_output
|}.

(** A run about to take a step: a kettle close to the one of
    [scenario_args], a full deque of capacity 3, empty records. *)
Definition tuner_start (level : Q) : Simulation CountdownTuner :=
  mkSim "autotune"%string (mkCountdown 0 level)
        (Kettle.mk (6979 # 100) 40 (95 # 100) 5)
        (mkDeque 3 [40; 40; 40]) [] [] [] [].

Definition feedback_start (level : Q) : Simulation ConstPID :=
  mkSim "const"%string (mkConstPID level)
        (Kettle.mk (6979 # 100) 40 (95 # 100) 5)
        (mkDeque 3 [40; 40; 40]) [] [] [] [].

(** The command line of [scenario_args] with [--maxout 50]. *)
Definition half_range_args : Args :=
  mkArgs [] 40 45 20 1 15 5 70 50 5 6 1 0 50.

(** The heater temperature after the first step of a run when the level
    [level] (the fraction of the heater power) is applied: the kettle of the
    configuration heated for one sample time, then cooled. *)
Definition first_step_temperature (args : Args) (level : Q) : result Q :=
  k0 <- Kettle.__init__ (diameter args) (volume args) (kettle_temp args)
          (kettle_mass args) ;;
  '(k1, _) <- Kettle.heat k0 (heater_power args * level) (sampletime args)
                Kettle.default_efficiency ;;
  '(k2, _) <- Kettle.cool k1 (sampletime args) (ambient_temp args)
                (heat_loss_factor args) ;;
  Ret (Kettle.temperature k2).

(** ** Predicates on run records *)

(** The four recorded sequences have one length, [n]. *)
Definition record_lengths {S : Type} (n : nat) (sim : Simulation S) : Prop :=
  length (timestamps sim) = n /\ length (outputs sim) = n /\
  length (sensor_temps sim) = n /\ length (heater_temps sim) = n.

(** The deque holds exactly [maxlen] samples. *)
Definition deque_full (d : deque) : Prop := length (items d) = maxlen d.

(** The state of a run after [k] steps, for a deque of capacity [N] filled
    with [T0] at the start: the deque holds the last [N] entries of the
    initial fill followed by the heater temperatures, and each sensor reading
    is the front of the deque just after the push of its step. *)
Definition run_inv {S : Type} (N : nat) (T0 : Q) (k : nat) (sim : Simulation S)
  : Prop :=
  maxlen (delayed_temps sim) = N /\
  items (delayed_temps sim) = skipn k (repeat T0 N ++ heater_temps sim) /\
  sensor_temps sim = firstn k (repeat T0 (N - 1) ++ heater_temps sim) /\
  length (heater_temps sim) = k /\
  length (timestamps sim) = k /\
  length (outputs sim) = k.

(** A loop answer that is a normal return. *)
Definition returned {A : Type} (r : option (result A)) : bool :=
  match r with
  | Some (Ret _) => true
  | _ => false
  end.

(** ** The other computations of sim.py *)

(** [l[i]] on a list, for [i >= 0]. *)
Definition list_getitem (l : list Q) (i : nat) : result Q :=
  match nth_error l i with
  | Some x => Ret x
  | None => Raise IndexError
  end.

Definition newline : string := String (Ascii.ascii_of_nat 10) EmptyString.

Definition csv_header : string :=
  ("timestamp;output;sensor_temp;heater_temp" ++ newline)%string.

Section WriteCsv.

(** ['{0};{1:.2f};{2:.2f};{3:.2f}\n'.format(t, o, s, h)], the text of one
    row.  The number formatting of [str.format] is not modelled. *)
Variable format_row : Q -> Q -> Q -> Q -> string.

(** [write_csv(sim)]: the name of the file and the lines written to it. *)
Definition write_csv {S : Type} (sim : Simulation S)
  : result (string * list string) :=
  let filename := (name sim ++ ".csv")%string in
  rows <- mapM (fun i =>
                  t <- list_getitem (timestamps sim) i ;;
                  o <- list_getitem (outputs sim) i ;;
                  s <- list_getitem (sensor_temps sim) i ;;
                  h <- list_getitem (heater_temps sim) i ;;
                  Ret (format_row t o s h))
               (seq 0 (length (timestamps sim))) ;;
  Ret (filename, csv_header :: rows).

(** The text of the row of index [i]. *)
Definition csv_row {S : Type} (sim : Simulation S) (i : nat) : string :=
  format_row (nth i (timestamps sim) 0) (nth i (outputs sim) 0)
             (nth i (sensor_temps sim) 0) (nth i (heater_temps sim) 0).

End WriteCsv.

(** [max(l)] on a list: the first greatest element; [None] stands for the
    [ValueError] raised on an empty list. *)
Definition py_max_seq (l : list Q) : option Q :=
  match l with
  | [] => None
  | x :: l' => Some (fold_left py_max l' x)
  end.

(** The first loop of [plot_simulations]: [upper_limit], from its value so
    far. *)
Fixpoint plot_upper_limit {S : Type} (upper_limit : Q)
    (simulations : list (Simulation S)) : option Q :=
  match simulations with
  | [] => Some upper_limit
  | sim :: rest =>
      match py_max_seq (sensor_temps sim) with
      | None => None
      | Some m => plot_upper_limit (py_max upper_limit (m + 1)) rest
      end
  end.

(** The limits [plot_simulations] passes to [ax1.set_ylim], if it calls it:
    [None] is the [ValueError], [Some None] a plot left with its automatic
    limits, [Some (Some (lower_limit, upper_limit))] the call. *)
Definition plot_ylim {S : Type} (args : Args)
    (simulations : list (Simulation S)) : option (option (Q * Q)) :=
  match plot_upper_limit 0 simulations with
  | None => None
  | Some upper_limit =>
      if Qlt_le_dec (setpoint args) upper_limit then
        Some (Some (setpoint args - (upper_limit - setpoint args), upper_limit))
      else Some None
  end.

(** ** Further predicates *)

(** The value of [timestamp] after [k] iterations of either loop. *)
Fixpoint clock (s : Q) (k : nat) : Q :=
  match k with
  | O => 0
  | S k' => clock s k' + s
  end.

(** The thermal mass of the kettle a configuration asks for. *)
Definition config_thermal_mass (args : Args) : Q :=
  Kettle.SPECIFIC_HEAT_CAP_WATER * (volume args * Kettle.DENSITY_WATER)
  + Kettle.SPECIFIC_HEAT_CAP_BRASS * kettle_mass args.

(** The energy term [power * duration] that [cool] hands to [_get_deltaT]:
    [power] is the loss divided by the duration, then by 1000. *)
Definition loss_energy (k : Kettle.t) (duration ambient_temp : Q) : Q :=
  Kettle.THERMAL_CONDUCTIVITY_KETTLE * Kettle._surface k
  * (Kettle._temp k - ambient_temp) / duration / 1000 * duration.

(** The state of a run of either mode after [k] steps, [timestamp] being the
    loop variable: [run_inv], the time base, the kettle [k0] of the set-up
    with only its temperature changed, and that temperature being the last
    one recorded. *)
Definition run_state {S : Type} (args : Args) (N : nat) (k0 : Kettle.t)
    (k : nat) (timestamp : Q) (sim : Simulation S) : Prop :=
  run_inv N (kettle_temp args) k sim /\
  timestamp = clock (sampletime args) k /\
  timestamps sim = map (clock (sampletime args)) (seq 1 k) /\
  last (heater_temps sim) (kettle_temp args)
  = Kettle.temperature (kettle sim) /\
  (exists T, kettle sim = Kettle.set_temp k0 T).

(** A run on which the next step cannot fail for a reason of its own: the
    kettle has a thermal mass and the deque is full, with room for a sample. *)
Definition step_ready {S : Type} (sim : Simulation S) : Prop :=
  ~ Kettle.thermal_mass (kettle sim) == 0 /\
  (1 <= maxlen (delayed_temps sim))%nat /\
  deque_full (delayed_temps sim).

(** * The program in binary64

    The same sources with Python's own arithmetic: every [float] is a
    binary64 value and the operators round as IEEE-754 prescribes.  This
    second embedding is used to run the program on concrete inputs; the
    exceptions of [math.pow], [round] and [deque(maxlen=...)] are kept. *)

Module B64.
#[local] Set Warnings "-notation-overridden".
Local Open Scope float_scope.

Inductive exn : Type :=
| ZeroDivisionError
| IndexError
| OverflowError
| ValueError.

Inductive result (A : Type) : Type :=
| Ret (a : A)
| Raise (e : exn).

Arguments Ret {A} a.
Arguments Raise {A} e.

Definition bind {A B : Type} (m : result A) (f : A -> result B) : result B :=
  match m with
  | Ret a => f a
  | Raise e => Raise e
  end.

Local Notation "x <- m ;; k" := (bind m (fun x => k))
  (at level 61, m at next level, right associativity).
Local Notation "' pat <- m ;; k" := (bind m (fun x => match x with pat => k end))
  (at level 61, pat pattern, m at next level, right associativity).

Fixpoint mapM {A B : Type} (f : A -> result B) (xs : list A) : result (list B) :=
  match xs with
  | [] => Ret []
  | x :: xs' =>
      y <- f x ;;
      ys <- mapM f xs' ;;
      Ret (y :: ys)
  end.

(** [x / y]: raises on a zero divisor, of either sign. *)
Definition fdiv (x y : float) : result float :=
  if PrimFloat.eqb y 0 then Raise ZeroDivisionError else Ret (x / y).

Definition math_pi : float := 0x1.921fb54442d18p+1.

(** [math.pow(x, 2)]: the square, with [OverflowError] when a finite [x]
    overflows.  The square is taken as the correctly rounded product. *)
Definition math_pow_2 (x : float) : result float :=
  let r := x * x in
  if is_infinity r && negb (is_infinity x) then Raise OverflowError else Ret r.

Definition py_max (a b : float) : float := if PrimFloat.ltb a b then b else a.
Definition py_min (a b : float) : float := if PrimFloat.ltb b a then b else a.

(** The rational a finite float denotes. *)
Definition float_value (x : float) : option Q :=
  match Prim2SF x with
  | S754_zero _ => Some 0%Q
  | S754_finite s m e =>
      let v := (inject_Z (Z.pos m) * 2 ^ e)%Q in
      Some (if s then (- v)%Q else v)
  | _ => None
  end.

(** [round(x)]: the nearest integer of the exact value, ties to even;
    [ValueError] on a NaN, [OverflowError] on an infinity. *)
Definition py_round (x : float) : result Z :=
  match float_value x with
  | Some q => Ret (py_round q)
  | None => if is_nan x then Raise ValueError else Raise OverflowError
  end.

(** [x < n] for a float and an [int]: Python compares the exact values; an
    infinity and a NaN compare as they do with 0. *)
Definition float_lt_int (x : float) (n : Z) : bool :=
  match float_value x with
  | Some q =>
      match Qcompare q (inject_Z n) with
      | Lt => true
      | _ => false
      end
  | None => PrimFloat.ltb x 0
  end.

Record deque : Type := mkDeque {
  maxlen : nat;
  items : list float
}.

(** [deque(maxlen=n)]: [OverflowError] above [sys.maxsize]. *)
Definition deque_new (n : Z) : result deque :=
  if (9223372036854775807 <? n)%Z then Raise OverflowError
  else Ret (mkDeque (Z.to_nat n) []).

Definition deque_append (d : deque) (x : float) : deque :=
  let l := items d ++ [x] in
  mkDeque (maxlen d) (if (maxlen d <? length l)%nat then tl l else l).

Definition deque_extend (d : deque) (xs : list float) : deque :=
  fold_left deque_append xs d.

Definition deque_getitem (d : deque) (i : nat) : result float :=
  match nth_error (items d) i with
  | Some x => Ret x
  | None => Raise IndexError
  end.

Module Kettle.

Definition DENSITY_WATER : float := 0.997.
Definition SPECIFIC_HEAT_CAP_WATER : float := 4.200.
Definition SPECIFIC_HEAT_CAP_BRASS : float := 0.400.
Definition THERMAL_CONDUCTIVITY_BRASS : float := 96.
Definition THERMAL_CONDUCTIVITY_KETTLE : float :=
  THERMAL_CONDUCTIVITY_BRASS * 0.5.

Record t : Type := mk {
  _waterMass : float;
  _temp : float;
  _surface : float;
  _kettleMass : float
}.

Definition set_temp (self : t) (v : float) : t :=
  mk (_waterMass self) v (_surface self) (_kettleMass self).

Definition __init__ (diameter volume temp kettleMass : float) : result t :=
  let waterMass := volume * DENSITY_WATER in
  let radius := diameter / 2 in
  sq <- math_pow_2 radius ;;
  height <- fdiv (volume * 1000) (math_pi * sq) ;;
  sq' <- math_pow_2 radius ;;
  let surface := (2 * math_pi * sq' + 2 * math_pi * radius * height) / 10000 in
  Ret (mk waterMass temp surface kettleMass).

Definition temperature (self : t) : float := _temp self.

Definition _get_deltaT (self : t) (power duration : float) : result float :=
  fdiv (power * duration)
       (SPECIFIC_HEAT_CAP_WATER * _waterMass self
        + SPECIFIC_HEAT_CAP_BRASS * _kettleMass self).

Definition default_efficiency : float := 0.98.

Definition heat (self : t) (power duration efficiency : float)
  : result (t * float) :=
  dT <- _get_deltaT self (power * efficiency) duration ;;
  let self' := set_temp self (_temp self + dT) in
  Ret (self', _temp self').

Definition cool (self : t) (duration ambient_temp heat_loss_factor : float)
  : result (t * float) :=
  power <- fdiv (THERMAL_CONDUCTIVITY_KETTLE * _surface self
                 * (_temp self - ambient_temp)) duration ;;
  let power := power / 1000 in
  dT <- _get_deltaT self power duration ;;
  let self' := set_temp self (_temp self - dT * heat_loss_factor) in
  Ret (self', _temp self').

End Kettle.

Record Args : Type := mkArgs {
  pid : list (string * float * float * float);
  kettle_temp : float;
  setpoint : float;
  ambient_temp : float;
  interval : Z;
  delay : float;
  sampletime : float;
  volume : float;
  diameter : float;
  kettle_mass : float;
  heater_power : float;
  heat_loss_factor : float;
  out_min : float;
  out_max : float
}.

Class FeedbackController (C : Type) : Type := {
  PIDArduino : float -> float -> float -> float -> float -> float -> C;
  calc : C -> float -> float -> float -> C * float
}.

Record Simulation (S : Type) : Type := mkSim {
  name : string;
  sut : S;
  kettle : Kettle.t;
  delayed_temps : deque;
  timestamps : list float;
  heater_temps : list float;
  sensor_temps : list float;
  outputs : list float
}.

Arguments mkSim {S}.
Arguments name {S}.
Arguments sut {S}.
Arguments kettle {S}.
Arguments delayed_temps {S}.
Arguments timestamps {S}.
Arguments heater_temps {S}.
Arguments sensor_temps {S}.
Arguments outputs {S}.

Definition set_sut {S : Type} (sim : Simulation S) (c : S) : Simulation S :=
  mkSim (name sim) c (kettle sim) (delayed_temps sim) (timestamps sim)
        (heater_temps sim) (sensor_temps sim) (outputs sim).

Definition set_delayed_temps {S : Type} (sim : Simulation S) (d : deque)
  : Simulation S :=
  mkSim (name sim) (sut sim) (kettle sim) d (timestamps sim)
        (heater_temps sim) (sensor_temps sim) (outputs sim).

Definition sim_update {S : Type} (sim : Simulation S) (timestamp output : float)
    (args : Args) : result (Simulation S) :=
  level <- fdiv output (out_max args) ;;
  '(k1, _) <- Kettle.heat (kettle sim) (heater_power args * level)
                (sampletime args) Kettle.default_efficiency ;;
  '(k2, _) <- Kettle.cool k1 (sampletime args) (ambient_temp args)
                (heat_loss_factor args) ;;
  let dq := deque_append (delayed_temps sim) (Kettle.temperature k2) in
  front <- deque_getitem dq 0 ;;
  Ret (mkSim (name sim) (sut sim) k2 dq
         (timestamps sim ++ [timestamp])
         (heater_temps sim ++ [Kettle.temperature k2])
         (sensor_temps sim ++ [front])
         (outputs sim ++ [output])).

(** [max(1, round(args.delay / args.sampletime))] *)
Definition delayed_temps_len (args : Args) : result Z :=
  q <- fdiv (delay args) (sampletime args) ;;
  r <- py_round q ;;
  Ret (Z.max 1 r).

Section Feedback.
Context {C : Type} `{FeedbackController C}.

Definition simulate_pid_init (args : Args) : result (list (Simulation C)) :=
  n <- delayed_temps_len args ;;
  sims <- mapM (fun p : string * float * float * float =>
                  let '(nm, kp, ki, kd) := p in
                  let c := PIDArduino (sampletime args) kp ki kd
                                      (out_min args) (out_max args) in
                  k <- Kettle.__init__ (diameter args) (volume args)
                         (kettle_temp args) (kettle_mass args) ;;
                  d <- deque_new n ;;
                  Ret (mkSim nm c k d [] [] [] []))
               (pid args) ;;
  Ret (map (fun sim =>
              set_delayed_temps sim
                (deque_extend (delayed_temps sim)
                   (list_mul (maxlen (delayed_temps sim)) [kettle_temp args])))
           sims).

Definition pid_body (args : Args) (timestamp : float) (sim : Simulation C)
  : result (Simulation C) :=
  observed <- deque_getitem (delayed_temps sim) 0 ;;
  let '(c, output) := calc (sut sim) timestamp observed (setpoint args) in
  let output := py_max output (out_min args) in
  let output := py_min output (out_max args) in
  sim_update (set_sut sim c) timestamp output args.

Fixpoint simulate_pid_loop (fuel : nat) (args : Args) (timestamp : float)
    (sims : list (Simulation C)) : option (result (list (Simulation C))) :=
  if float_lt_int timestamp (interval args * 60) then
    match fuel with
    | O => None
    | S fuel' =>
        let timestamp := timestamp + sampletime args in
        match mapM (pid_body args timestamp) sims with
        | Ret sims' => simulate_pid_loop fuel' args timestamp sims'
        | Raise e => Some (Raise e)
        end
    end
  else Some (Ret sims).

Definition simulate_pid (fuel : nat) (args : Args)
  : option (result (list (Simulation C))) :=
  match simulate_pid_init args with
  | Ret sims => simulate_pid_loop fuel args 0 sims
  | Raise e => Some (Raise e)
  end.

End Feedback.

(** A feedback controller that answers a constant. *)
Record ConstPID : Type := mkConstPID { const_level : float }.

Definition ConstPID_feedback (level : float) : FeedbackController ConstPID := {|
  PIDArduino := fun _ _ _ _ _ _ => mkConstPID level;
  calc := fun c _ _ _ => (c, const_level c)
|}.

(** The defaults of the command line with [--sampletime 0.4]: a single run
    and an interval of one minute. *)
Definition fine_step_args : Args :=
  mkArgs [("const50"%string, 0, 0, 0)] 40 45 20 1 15 0.4 70 50 5 6 1 0 100.

End B64.

(** * Properties *)

(** ** The embedding on small inputs *)

Example py_round_ties_to_even :
  (py_round (1 # 2), py_round (3 # 2), py_round (5 # 2), py_round (-3 # 2),
   py_round (26 # 10), py_round (-26 # 10))
  = (0, 2, 2, -2, 3, -3)%Z.
Proof. reflexivity. Qed.

Example py_max_min_clamp :
  (py_min (py_max 150 0) 100, py_min (py_max (-7) 0) 100,
   py_min (py_max 50 0) 100) = (100, 0, 50).
Proof. reflexivity. Qed.

Example deque_append_evicts_oldest :
  items (deque_append (mkDeque 3 [1; 2; 3]) 4) = [2; 3; 4].
Proof. reflexivity. Qed.

Example deque_getitem_on_empty :
  deque_getitem (deque_new 3) 0 = Raise IndexError.
Proof. reflexivity. Qed.

Example scenario_capacity : delayed_temps_len scenario_args = Ret 3%nat.
Proof. reflexivity. Qed.

Example short_delay_capacity :
  delayed_temps_len
    (mkArgs [] 40 45 20 1 1 5 70 50 5 6 1 0 100) = Ret 1%nat.
Proof. reflexivity. Qed.

Example zero_sampletime_raises :
  delayed_temps_len
    (mkArgs [] 40 45 20 1 15 0 70 50 5 6 1 0 100) = Raise ZeroDivisionError.
Proof. reflexivity. Qed.

Example zero_diameter_raises :
  Kettle.__init__ 0 70 40 5 = Raise ZeroDivisionError.
Proof. reflexivity. Qed.

Example cool_zero_duration_raises :
  Kettle.cool (Kettle.mk (6979 # 100) 40 (95 # 100) 5) 0 20 1
  = Raise ZeroDivisionError.
Proof. reflexivity. Qed.

Example b64_round_half_even :
  (B64.py_round 0.5, B64.py_round 1.5, B64.py_round 2.5, B64.py_round (-1.5),
   B64.py_round infinity, B64.py_round nan)
  = (B64.Ret 0%Z, B64.Ret 2%Z, B64.Ret 2%Z, B64.Ret (-2)%Z,
     B64.Raise B64.OverflowError, B64.Raise B64.ValueError).
Proof. vm_compute. reflexivity. Qed.

Example b64_capacity_rounds_the_float_quotient :
  B64.delayed_temps_len
    (B64.mkArgs [] 40 45 20 1 0.03 0.02 70 50 5 6 1 0 100) = B64.Ret 2%Z.
Proof. vm_compute. reflexivity. Qed.

Example b64_capacity_overflow :
  B64.delayed_temps_len
    (B64.mkArgs [] 40 45 20 1 1e308 1e-308 70 50 5 6 1 0 100)
  = B64.Raise B64.OverflowError /\
  B64.bind (B64.delayed_temps_len
              (B64.mkArgs [] 40 45 20 1 1e30 1 70 50 5 6 1 0 100))
           B64.deque_new
  = B64.Raise B64.OverflowError.
Proof. split; vm_compute; reflexivity. Qed.

Example b64_init_raises :
  B64.Kettle.__init__ 0 70 40 5 = B64.Raise B64.ZeroDivisionError /\
  B64.Kettle.__init__ 1e-200 70 40 5 = B64.Raise B64.ZeroDivisionError /\
  B64.Kettle.__init__ 1e200 70 40 5 = B64.Raise B64.OverflowError.
Proof. repeat split; vm_compute; reflexivity. Qed.

Example b64_float_lt_int :
  (B64.float_lt_int 59.999999999999851 60, B64.float_lt_int 60 60,
   B64.float_lt_int neg_infinity 60, B64.float_lt_int infinity 60,
   B64.float_lt_int nan 60)
  = (true, false, true, false, false).
Proof. vm_compute. reflexivity. Qed.

Example autotune_scenario_lengths :
  match @simulate_autotune _ (CountdownTuner_autotune 4 50) 5 scenario_args with
  | Some (Ret (ts, sim)) =>
      ts == 20 /\ record_lengths 4 sim /\ outputs sim = [50; 50; 50; 50]
  | _ => False
  end.
Proof. lazy. repeat split. Qed.

(** ** The error monad and Python division *)

Lemma fdiv_nonzero (x y : Q) : ~ y == 0 -> fdiv x y = Ret (x / y).
Proof.
  intros Hy. unfold fdiv.
  destruct (Qeq_bool y 0) eqn:E; [|reflexivity].
  apply Qeq_bool_iff in E. contradiction.
Qed.

Lemma fdiv_zero (x y : Q) : y == 0 -> fdiv x y = Raise ZeroDivisionError.
Proof.
  intros Hy. unfold fdiv. apply Qeq_bool_iff in Hy. now rewrite Hy.
Qed.

Lemma fdiv_Ret_inv (x y q : Q) : fdiv x y = Ret q -> ~ y == 0 /\ q = x / y.
Proof.
  unfold fdiv. destruct (Qeq_bool y 0) eqn:E; [discriminate|].
  intros [= <-]. split; [|reflexivity].
  intros Hy. apply Qeq_bool_iff in Hy. congruence.
Qed.

Lemma bind_Ret_inv {A B : Type} (m : result A) (f : A -> result B) (b : B) :
  bind m f = Ret b -> exists a, m = Ret a /\ f a = Ret b.
Proof.
  destruct m as [a|e]; simpl; [|discriminate]. intros Hf. now exists a.
Qed.

(** ** The thermal model *)

Module KettleFacts.
Import Kettle.

Lemma get_deltaT_nonzero (k : t) (p d : Q) :
  ~ thermal_mass k == 0 -> _get_deltaT k p d = Ret (p * d / thermal_mass k).
Proof. intros HM. unfold _get_deltaT. now rewrite fdiv_nonzero. Qed.

Lemma get_deltaT_zero (k : t) (p d : Q) :
  thermal_mass k == 0 -> _get_deltaT k p d = Raise ZeroDivisionError.
Proof. intros HM. unfold _get_deltaT. now rewrite fdiv_zero. Qed.

Lemma thermal_mass_pos (k : t) : valid k -> 0 < thermal_mass k.
Proof.
  intros (Hw & Hk & _). unfold thermal_mass, SPECIFIC_HEAT_CAP_WATER,
    SPECIFIC_HEAT_CAP_BRASS. lra.
Qed.

Lemma heat_nonzero (k : t) (p d e : Q) :
  ~ thermal_mass k == 0 ->
  heat k p d e =
  Ret (set_temp k (_temp k + p * e * d / thermal_mass k),
       _temp k + p * e * d / thermal_mass k).
Proof. intros HM. unfold heat. now rewrite get_deltaT_nonzero. Qed.

Lemma heat_zero (k : t) (p d e : Q) :
  thermal_mass k == 0 -> heat k p d e = Raise ZeroDivisionError.
Proof. intros HM. unfold heat. now rewrite get_deltaT_zero. Qed.

Lemma cool_nonzero (k : t) (d a f : Q) :
  ~ d == 0 -> ~ thermal_mass k == 0 ->
  exists T',
    cool k d a f = Ret (set_temp k T', T') /\
    T' == _temp k
          - THERMAL_CONDUCTIVITY_KETTLE * _surface k * (_temp k - a)
            / (1000 * thermal_mass k) * f.
Proof.
  intros Hd HM. unfold cool.
  rewrite fdiv_nonzero by assumption. cbn -[Qdiv Qmult Qminus].
  rewrite get_deltaT_nonzero by assumption. cbn -[Qdiv Qmult Qminus].
  eexists. split; [reflexivity|]. field. split; assumption.
Qed.

Lemma cool_zero_duration (k : t) (d a f : Q) :
  d == 0 -> cool k d a f = Raise ZeroDivisionError.
Proof. intros Hd. unfold cool. now rewrite fdiv_zero. Qed.

Lemma cool_zero_mass (k : t) (d a f : Q) :
  ~ d == 0 -> thermal_mass k == 0 -> cool k d a f = Raise ZeroDivisionError.
Proof.
  intros Hd HM. unfold cool. rewrite fdiv_nonzero by assumption.
  cbn -[Qdiv Qmult Qminus]. now rewrite get_deltaT_zero.
Qed.

Lemma thermal_mass_set_temp (k : t) (v : Q) :
  thermal_mass (set_temp k v) = thermal_mass k.
Proof. reflexivity. Qed.

End KettleFacts.

(** C4. On a kettle whose thermal mass is not zero, [heat(power, duration,
    efficiency)] returns, the new temperature is the old one plus
    [power * efficiency * duration] divided by
    [SPECIFIC_HEAT_CAP_WATER * waterMass + SPECIFIC_HEAT_CAP_BRASS * kettleMass],
    the returned value is the updated temperature, nothing else changes, and a
    zero power or a zero duration leaves the temperature unchanged. *)
Theorem heat_adds_delta (k : Kettle.t) (power duration efficiency : Q) :
  ~ Kettle.thermal_mass k == 0 ->
  exists k',
    Kettle.heat k power duration efficiency = Ret (k', Kettle.temperature k') /\
    Kettle.temperature k' ==
      Kettle.temperature k
      + (power * efficiency * duration)
        / (Kettle.SPECIFIC_HEAT_CAP_WATER * Kettle._waterMass k
           + Kettle.SPECIFIC_HEAT_CAP_BRASS * Kettle._kettleMass k) /\
    Kettle._waterMass k' = Kettle._waterMass k /\
    Kettle._kettleMass k' = Kettle._kettleMass k /\
    Kettle._surface k' = Kettle._surface k /\
    (power == 0 \/ duration == 0 ->
     Kettle.temperature k' == Kettle.temperature k).
Proof.
  intros HM. rewrite (KettleFacts.heat_nonzero k power duration efficiency HM).
  exists (Kettle.set_temp k
            (Kettle._temp k
             + power * efficiency * duration / Kettle.thermal_mass k)).
  split; [reflexivity|].
  unfold Kettle.temperature.
  cbn [Kettle.set_temp Kettle._temp Kettle._waterMass Kettle._surface
       Kettle._kettleMass].
  fold (Kettle.thermal_mass k).
  split; [reflexivity|]. repeat (split; [reflexivity|]).
  intros [Hz | Hz]; rewrite Hz; field; assumption.
Qed.

Lemma heat_adds_delta_witness :
  exists k',
    Kettle.heat (Kettle.mk (6979 # 100) 40 (95 # 100) 5) 3 5 (98 # 100)
    = Ret (k', Kettle.temperature k') /\
    Kettle.temperature k' ==
      40 + (3 * (98 # 100) * 5)
           / (Kettle.SPECIFIC_HEAT_CAP_WATER * (6979 # 100)
              + Kettle.SPECIFIC_HEAT_CAP_BRASS * 5).
Proof.
  destruct (heat_adds_delta (Kettle.mk (6979 # 100) 40 (95 # 100) 5)
              3 5 (98 # 100)) as (k' & Hrun & Htemp & _).
  - vm_compute. discriminate.
  - exists k'. split; [exact Hrun | exact Htemp].
Defined.

(** C5, the counterexamples.  A vessel mass of -20 kg with one litre of
    contents is a state with a positive surface and a positive contents mass
    whose thermal mass is negative: above the ambient temperature, [cool]
    makes it warmer.  And in binary64 the direction is not strict: a kettle
    at 20.000000000000004 degrees, with the ambient at 20, returns the
    temperature it had, the loss being less than half a unit in the last
    place. *)
Lemma cool_direction_counterexamples :
  (exists k k',
     Kettle.__init__ 50 1 40 (-20) = Ret k /\
     0 < Kettle._surface k /\ 0 < Kettle._waterMass k /\
     Kettle.cool k 5 20 1 = Ret (k', Kettle.temperature k') /\
     20 < Kettle.temperature k /\
     Kettle.temperature k < Kettle.temperature k') /\
  (exists k k',
     B64.Kettle.__init__ 50 70 20.000000000000004 5 = B64.Ret k /\
     PrimFloat.ltb 0 (B64.Kettle._surface k) = true /\
     PrimFloat.ltb 0 (B64.Kettle._waterMass k) = true /\
     B64.Kettle.cool k 5 20 1 = B64.Ret (k', B64.Kettle.temperature k') /\
     PrimFloat.ltb 20 (B64.Kettle.temperature k) = true /\
     PrimFloat.eqb (B64.Kettle.temperature k') (B64.Kettle.temperature k)
     = true).
Proof.
  split.
  - eexists _, _. split; [reflexivity|].
    repeat split; vm_compute; reflexivity.
  - eexists _, _. split; [vm_compute; reflexivity|].
    repeat split; vm_compute; reflexivity.
Qed.

(** C5, as the code has it.  On a kettle with a positive contents mass, a
    positive surface and a vessel mass that is not negative, [cool] with a
    positive duration and a positive heat-loss factor returns the updated
    temperature; at the ambient temperature the temperature is unchanged,
    above it the temperature does not increase, below it it does not
    decrease. *)
Theorem cool_direction (k : Kettle.t) (duration ambient_temp heat_loss_factor : Q) :
  Kettle.valid k -> 0 < duration -> 0 < heat_loss_factor ->
  exists k',
    Kettle.cool k duration ambient_temp heat_loss_factor
    = Ret (k', Kettle.temperature k') /\
    (Kettle.temperature k == ambient_temp ->
     Kettle.temperature k' == Kettle.temperature k) /\
    (ambient_temp < Kettle.temperature k ->
     Kettle.temperature k' <= Kettle.temperature k) /\
    (Kettle.temperature k < ambient_temp ->
     Kettle.temperature k <= Kettle.temperature k').
Proof.
  intros Hv Hd Hf.
  pose proof (KettleFacts.thermal_mass_pos k Hv) as HM.
  destruct Hv as (_ & _ & HS).
  destruct (KettleFacts.cool_nonzero k duration ambient_temp heat_loss_factor)
    as (T' & Hrun & HT'); [lra | lra |].
  exists (Kettle.set_temp k T'). split; [exact Hrun|].
  unfold Kettle.temperature. cbn [Kettle.set_temp Kettle._temp].
  set (c := Kettle.THERMAL_CONDUCTIVITY_KETTLE * Kettle._surface k
            / (1000 * Kettle.thermal_mass k) * heat_loss_factor).
  assert (Hc : 0 < c).
  { unfold c. apply Qmult_lt_0_compat; [|assumption].
    apply Qlt_shift_div_l; [lra|].
    unfold Kettle.THERMAL_CONDUCTIVITY_KETTLE, Kettle.THERMAL_CONDUCTIVITY_BRASS.
    lra. }
  assert (HT : T' == Kettle._temp k - c * (Kettle._temp k - ambient_temp)).
  { rewrite HT'. unfold c. field. lra. }
  rewrite HT. repeat split; intros Hcmp; nra.
Qed.

Lemma cool_direction_witness :
  exists k',
    Kettle.cool (Kettle.mk (6979 # 100) 40 (95 # 100) 5) 5 20 1
    = Ret (k', Kettle.temperature k') /\
    Kettle.temperature k' <= 40.
Proof.
  destruct (cool_direction (Kettle.mk (6979 # 100) 40 (95 # 100) 5) 5 20 1)
    as (k' & Hrun & _ & Hdown & _).
  - unfold Kettle.valid. cbn. lra.
  - lra.
  - lra.
  - exists k'. split; [exact Hrun|]. apply Hdown. cbn. lra.
Defined.

(** C6, the counterexample.  In binary64, from a kettle of the default
    geometry at 0 degrees with the ambient at 20, [cool] for 5 seconds and
    [cool] for 0.7 seconds return different temperatures
    (0.003099069248337191 and 0.0030990692483371905): dividing the loss by
    the duration and multiplying it back does not restore it. *)
Lemma cool_depends_on_duration :
  exists k k5 k07,
    B64.Kettle.__init__ 50 70 0 5 = B64.Ret k /\
    B64.Kettle.cool k 5 20 1 = B64.Ret (k5, B64.Kettle.temperature k5) /\
    B64.Kettle.cool k 0.7 20 1 = B64.Ret (k07, B64.Kettle.temperature k07) /\
    PrimFloat.ltb (B64.Kettle.temperature k07) (B64.Kettle.temperature k5)
    = true.
Proof.
  eexists _, _, _. split; [vm_compute; reflexivity|].
  repeat split; vm_compute; reflexivity.
Qed.

(** C6, as the code has it.  The duration of a [cool] call enters the new
    temperature through [loss_energy] only: the loss divided by the duration
    and by 1000, multiplied by the duration again.  A call that returns
    leaves the temperature minus that energy over the thermal mass times the
    heat-loss factor, and two non-zero durations with the same [loss_energy]
    have the same outcome. *)
Theorem cool_duration_enters_through_loss_energy (k : Kettle.t)
    (d1 d2 a f : Q) :
  ~ d1 == 0 -> ~ d2 == 0 ->
  (forall d k' v,
     Kettle.cool k d a f = Ret (k', v) ->
     v = Kettle._temp k - loss_energy k d a / Kettle.thermal_mass k * f /\
     k' = Kettle.set_temp k v) /\
  (loss_energy k d1 a == loss_energy k d2 a ->
   outcome_equiv (Kettle.cool k d1 a f) (Kettle.cool k d2 a f)).
Proof.
  intros H1 H2. split.
  - intros d k' v Hrun. unfold Kettle.cool, Kettle._get_deltaT in Hrun.
    apply bind_Ret_inv in Hrun as (pw & Hpw & Hrun).
    apply fdiv_Ret_inv in Hpw as (_ & ->).
    apply bind_Ret_inv in Hrun as (dT & HdT & Hrun).
    apply fdiv_Ret_inv in HdT as (_ & ->).
    injection Hrun as <- <-. split; reflexivity.
  - intros Heq.
    destruct (Qeq_dec (Kettle.thermal_mass k) 0) as [HM | HM].
    + rewrite !KettleFacts.cool_zero_mass by assumption. reflexivity.
    + unfold Kettle.cool.
      rewrite !fdiv_nonzero by assumption. cbn [bind].
      rewrite !KettleFacts.get_deltaT_nonzero by assumption. cbn [bind].
      cbn [outcome_equiv]. unfold Kettle.equiv.
      cbn [Kettle.set_temp Kettle._temp Kettle._waterMass Kettle._surface
           Kettle._kettleMass].
      fold (loss_energy k d1 a). fold (loss_energy k d2 a).
      assert (Kettle._temp k - loss_energy k d1 a / Kettle.thermal_mass k * f
              == Kettle._temp k
                 - loss_energy k d2 a / Kettle.thermal_mass k * f)
        by (rewrite Heq; reflexivity).
      repeat split; try reflexivity; assumption.
Qed.

Lemma cool_duration_enters_through_loss_energy_witness :
  outcome_equiv (Kettle.cool (Kettle.mk (6979 # 100) 40 (95 # 100) 5) 5 20 1)
                (Kettle.cool (Kettle.mk (6979 # 100) 40 (95 # 100) 5) 60 20 1).
Proof.
  apply (proj2 (cool_duration_enters_through_loss_energy
                  (Kettle.mk (6979 # 100) 40 (95 # 100) 5) 5 60 20 1
                  ltac:(vm_compute; discriminate)
                  ltac:(vm_compute; discriminate))).
  vm_compute. reflexivity.
Defined.

(** C10, the counterexample.  In binary64, from the kettle of the default
    configuration, [heat(1, 1)] twice ends at 40.006641411232124 and
    [heat(1, 2)] at 40.006641411232117. *)
Lemma heat_is_not_additive_in_duration :
  exists k k1 v1 k2 k3,
    B64.Kettle.__init__ 50 70 40 5 = B64.Ret k /\
    B64.Kettle.heat k 1 1 0.98 = B64.Ret (k1, v1) /\
    B64.Kettle.heat k1 1 1 0.98 = B64.Ret (k2, B64.Kettle.temperature k2) /\
    B64.Kettle.heat k 1 (1 + 1) 0.98 = B64.Ret (k3, B64.Kettle.temperature k3) /\
    PrimFloat.ltb (B64.Kettle.temperature k3) (B64.Kettle.temperature k2)
    = true.
Proof.
  eexists _, _, _, _, _. split; [vm_compute; reflexivity|].
  split; [vm_compute; reflexivity|].
  repeat split; vm_compute; reflexivity.
Qed.

(** C10, as the code has it.  The delta of a [heat] call does not depend on
    the current temperature, and consecutive calls add their deltas one
    after the other: with a non-zero thermal mass [M], [heat(p, d1, e)]
    followed by [heat(p, d2, e)] returns the temperature
    [T + p * e * d1 / M + p * e * d2 / M] and the single call
    [heat(p, d1 + d2, e)] returns [T + p * e * (d1 + d2) / M]; with a zero
    thermal mass both raise [ZeroDivisionError]. *)
Theorem heat_deltas_add_in_sequence (k : Kettle.t) (p e d1 d2 : Q) :
  (Kettle.thermal_mass k == 0 ->
   ('(k1, _) <- Kettle.heat k p d1 e ;; Kettle.heat k1 p d2 e)
   = Raise ZeroDivisionError /\
   Kettle.heat k p (d1 + d2) e = Raise ZeroDivisionError) /\
  (~ Kettle.thermal_mass k == 0 ->
   exists k2 k3,
     ('(k1, _) <- Kettle.heat k p d1 e ;; Kettle.heat k1 p d2 e)
     = Ret (k2, Kettle.temperature k2) /\
     Kettle.heat k p (d1 + d2) e = Ret (k3, Kettle.temperature k3) /\
     Kettle.temperature k2
     = Kettle.temperature k
       + p * e * d1
         / (Kettle.SPECIFIC_HEAT_CAP_WATER * Kettle._waterMass k
            + Kettle.SPECIFIC_HEAT_CAP_BRASS * Kettle._kettleMass k)
       + p * e * d2
         / (Kettle.SPECIFIC_HEAT_CAP_WATER * Kettle._waterMass k
            + Kettle.SPECIFIC_HEAT_CAP_BRASS * Kettle._kettleMass k) /\
     Kettle.temperature k3
     = Kettle.temperature k
       + p * e * (d1 + d2)
         / (Kettle.SPECIFIC_HEAT_CAP_WATER * Kettle._waterMass k
            + Kettle.SPECIFIC_HEAT_CAP_BRASS * Kettle._kettleMass k) /\
     Kettle.set_temp k2 (Kettle.temperature k) = k /\
     Kettle.set_temp k3 (Kettle.temperature k) = k).
Proof.
  split.
  - intros HM. rewrite !KettleFacts.heat_zero by assumption.
    split; reflexivity.
  - intros HM. rewrite (KettleFacts.heat_nonzero k p d1 e HM).
    cbn [bind]. rewrite KettleFacts.heat_nonzero
      by (rewrite KettleFacts.thermal_mass_set_temp; assumption).
    rewrite (KettleFacts.heat_nonzero k p (d1 + d2) e HM).
    rewrite KettleFacts.thermal_mass_set_temp.
    eexists (Kettle.set_temp _ _), (Kettle.set_temp _ _).
    split; [reflexivity|]. split; [reflexivity|].
    destruct k as [w T S m]. repeat split; reflexivity.
Qed.

Lemma heat_deltas_add_in_sequence_witness :
  exists k2 k3,
    ('(k1, _) <- Kettle.heat (Kettle.mk (6979 # 100) 40 (95 # 100) 5)
                   1 1 (98 # 100) ;;
     Kettle.heat k1 1 1 (98 # 100))
    = Ret (k2, Kettle.temperature k2) /\
    Kettle.heat (Kettle.mk (6979 # 100) 40 (95 # 100) 5) 1 (1 + 1) (98 # 100)
    = Ret (k3, Kettle.temperature k3).
Proof.
  destruct (proj2 (heat_deltas_add_in_sequence
                     (Kettle.mk (6979 # 100) 40 (95 # 100) 5)
                     1 (98 # 100) 1 1))
    as (k2 & k3 & Hseq & Hone & _).
  - vm_compute. discriminate.
  - exists k2, k3. split; [exact Hseq | exact Hone].
Defined.

(** *** Construction *)

Lemma math_pi_pos : 0 < math_pi.
Proof. reflexivity. Qed.

Lemma init_divisor (d : Q) :
  math_pi * math_pow (d / 2) 2 == math_pi * (d * d) * (1 # 4).
Proof. unfold math_pow. simpl Qpower. field. Qed.

Lemma init_divisor_nonzero (d : Q) :
  ~ d == 0 -> ~ math_pi * math_pow (d / 2) 2 == 0.
Proof.
  intros Hd. rewrite init_divisor. pose proof math_pi_pos as Hpi.
  assert (0 < d * d) by nra.
  assert (0 < math_pi * (d * d)) by (apply Qmult_lt_0_compat; assumption).
  lra.
Qed.

Lemma init_returns (d v T m : Q) :
  ~ d == 0 ->
  exists S,
    Kettle.__init__ d v T m = Ret (Kettle.mk (v * Kettle.DENSITY_WATER) T S m) /\
    S == (math_pi * d ^ 2 / 2 + 4000 * v / d) / 10000.
Proof.
  intros Hd. unfold Kettle.__init__.
  rewrite fdiv_nonzero by (apply init_divisor_nonzero; assumption).
  cbn [bind]. eexists. split; [reflexivity|].
  pose proof math_pi_pos as Hpi.
  unfold math_pow. simpl Qpower. field. split; [assumption | lra].
Qed.

Lemma init_zero_diameter (d v T m : Q) :
  d == 0 -> Kettle.__init__ d v T m = Raise ZeroDivisionError.
Proof.
  intros Hd. unfold Kettle.__init__. rewrite fdiv_zero; [reflexivity|].
  rewrite init_divisor, Hd. reflexivity.
Qed.

(** What a returned construction is made of: the fields, the surface being
    the value of the expression of the source. *)
Lemma init_Ret_inv (d v T m : Q) (k : Kettle.t) :
  Kettle.__init__ d v T m = Ret k ->
  ~ d == 0 /\
  Kettle._waterMass k = v * Kettle.DENSITY_WATER /\
  Kettle._temp k = T /\ Kettle._kettleMass k = m /\
  exists height,
    fdiv (v * 1000) (math_pi * math_pow (d / 2) 2) = Ret height /\
    Kettle._surface k
    = (2 * math_pi * math_pow (d / 2) 2 + 2 * math_pi * (d / 2) * height)
      / 10000.
Proof.
  intros Hrun. split.
  - intros Hd. rewrite (init_zero_diameter d v T m Hd) in Hrun. discriminate.
  - unfold Kettle.__init__ in Hrun.
    apply bind_Ret_inv in Hrun as (height & Hh & Hrun). injection Hrun as <-.
    cbn [Kettle._waterMass Kettle._temp Kettle._kettleMass Kettle._surface].
    repeat split. exists height. split; [exact Hh | reflexivity].
Qed.

(** C7, the counterexample: a negative diameter and a negative volume are
    accepted without an error and yield a negative surface area and a negative
    contents mass. *)
Lemma init_accepts_invalid_geometry :
  (exists k, Kettle.__init__ (-50) 70 40 5 = Ret k /\ Kettle._surface k < 0) /\
  (exists k, Kettle.__init__ 50 (-70) 40 5 = Ret k /\ Kettle._waterMass k < 0).
Proof.
  split; eexists; (split; [reflexivity|]); reflexivity.
Qed.

(** C7, as the code has it.  The constructor validates nothing.  With a zero
    diameter the height computation raises [ZeroDivisionError].  A
    construction that returns, whatever the signs of its arguments, has
    [waterMass = volume * DENSITY_WATER], the temperature and the vessel mass
    it was given, and as surface the value of
    [(2 * pi * r^2 + 2 * pi * r * height) / 10000] with [r = diameter / 2]
    and [height = volume * 1000 / (pi * r^2)].  A valid construction
    (diameter > 0, volume > 0, mass >= 0) that returns has a positive surface
    area and a positive contents mass. *)
Theorem init_valid_geometry (diameter volume temp kettleMass : Q) :
  (diameter == 0 ->
   Kettle.__init__ diameter volume temp kettleMass = Raise ZeroDivisionError) /\
  (forall k,
     Kettle.__init__ diameter volume temp kettleMass = Ret k ->
     Kettle._waterMass k = volume * Kettle.DENSITY_WATER /\
     Kettle._temp k = temp /\
     Kettle._kettleMass k = kettleMass /\
     exists height,
       fdiv (volume * 1000) (math_pi * math_pow (diameter / 2) 2)
       = Ret height /\
       Kettle._surface k
       = (2 * math_pi * math_pow (diameter / 2) 2
          + 2 * math_pi * (diameter / 2) * height) / 10000) /\
  (0 < diameter -> 0 < volume -> 0 <= kettleMass ->
   forall k,
     Kettle.__init__ diameter volume temp kettleMass = Ret k ->
     0 < Kettle._surface k /\ 0 < Kettle._waterMass k).
Proof.
  split; [|split].
  - apply init_zero_diameter.
  - intros k Hrun.
    apply init_Ret_inv in Hrun as (_ & Hw & Ht & Hm & Hs).
    repeat split; assumption.
  - intros Hd Hv Hm k Hrun.
    destruct (init_returns diameter volume temp kettleMass) as (S & HS & Hform);
      [lra|].
    rewrite HS in Hrun. injection Hrun as <-.
    cbn [Kettle._surface Kettle._waterMass]. split.
    + rewrite Hform. pose proof math_pi_pos as Hpi.
      apply Qlt_shift_div_l; [lra|]. rewrite Qmult_0_l.
      assert (0 < math_pi * diameter ^ 2 / 2).
      { apply Qlt_shift_div_l; [lra|]. rewrite Qmult_0_l.
        apply Qmult_lt_0_compat; [assumption|]. simpl Qpower. nra. }
      assert (0 < 4000 * volume / diameter).
      { apply Qlt_shift_div_l; [assumption|]. lra. }
      apply Qlt_trans with (0 + 4000 * volume / diameter);
        [rewrite Qplus_0_l; assumption|].
      apply Qplus_lt_le_compat; [assumption | apply Qle_refl].
    + unfold Kettle.DENSITY_WATER. lra.
Qed.

Lemma init_valid_geometry_witness :
  exists k,
    Kettle.__init__ 50 70 40 5 = Ret k /\
    0 < Kettle._surface k /\ 0 < Kettle._waterMass k.
Proof.
  eexists. split; [reflexivity|].
  apply (proj2 (proj2 (init_valid_geometry 50 70 40 5)));
    [lra | lra | lra | reflexivity].
Defined.

(** ** Lists and the deque *)

Lemma list_mul_singleton {A : Type} (n : nat) (x : A) :
  list_mul n [x] = repeat x n.
Proof.
  unfold list_mul. induction n as [|n IH]; simpl; [reflexivity|].
  now rewrite IH.
Qed.

Lemma skipn_S_tl {A : Type} (n : nat) (l : list A) :
  skipn (S n) l = tl (skipn n l).
Proof.
  revert l. induction n as [|n IH]; intros [|x l]; try reflexivity.
  exact (IH l).
Qed.

Lemma firstn_snoc_nth {A : Type} (n : nat) (l : list A) (x : A) :
  nth_error l n = Some x -> firstn (S n) l = firstn n l ++ [x].
Proof.
  revert l. induction n as [|n IH]; intros [|y l]; simpl; try discriminate.
  - now intros [= ->].
  - intros Hn. f_equal. now apply IH.
Qed.

Lemma nth_error_skipn_0 {A : Type} (n : nat) (l : list A) :
  nth_error (skipn n l) 0 = nth_error l n.
Proof.
  revert l. induction n as [|n IH]; intros [|y l]; simpl; try reflexivity.
  apply IH.
Qed.

Lemma deque_append_maxlen (d : deque) (x : Q) :
  maxlen (deque_append d x) = maxlen d.
Proof. reflexivity. Qed.

Lemma deque_append_below (d : deque) (x : Q) :
  (length (items d) < maxlen d)%nat ->
  items (deque_append d x) = items d ++ [x].
Proof.
  intros Hlt. unfold deque_append. cbn [items].
  rewrite length_app. cbn [length].
  destruct (Nat.ltb_spec (maxlen d) (length (items d) + 1)); [lia|reflexivity].
Qed.

Lemma deque_append_at_capacity (d : deque) (x : Q) :
  deque_full d -> items (deque_append d x) = tl (items d ++ [x]).
Proof.
  unfold deque_full. intros Hfull. unfold deque_append. cbn [items].
  rewrite length_app. cbn [length].
  destruct (Nat.ltb_spec (maxlen d) (length (items d) + 1)); [reflexivity|lia].
Qed.

Lemma deque_append_full (d : deque) (x : Q) :
  deque_full d -> deque_full (deque_append d x).
Proof.
  intros Hfull. unfold deque_full.
  rewrite deque_append_at_capacity, deque_append_maxlen by assumption.
  unfold deque_full in Hfull. rewrite <- Hfull.
  destruct (items d) as [|y l]; simpl; [reflexivity|].
  rewrite length_app. simpl. lia.
Qed.

Lemma deque_extend_below (xs : list Q) (d : deque) :
  (length (items d) + length xs <= maxlen d)%nat ->
  deque_extend d xs = mkDeque (maxlen d) (items d ++ xs).
Proof.
  unfold deque_extend. revert d.
  induction xs as [|x xs IH]; intros d Hle; cbn [fold_left].
  - rewrite app_nil_r. now destruct d.
  - cbn [length] in Hle. rewrite IH.
    + rewrite deque_append_maxlen, deque_append_below by lia.
      now rewrite <- app_assoc.
    + rewrite deque_append_maxlen, deque_append_below by lia.
      rewrite length_app. cbn [length]. lia.
Qed.

Lemma deque_initial_fill (n : nat) (T0 : Q) :
  deque_extend (deque_new n) (list_mul n [T0]) = mkDeque n (repeat T0 n).
Proof.
  rewrite list_mul_singleton, deque_extend_below.
  - reflexivity.
  - cbn. rewrite repeat_length. lia.
Qed.

(** ** One step of the driver *)

Lemma sim_update_Ret_inv {S : Type} (sim : Simulation S) (ts out : Q)
    (args : Args) (sim' : Simulation S) :
  sim_update sim ts out args = Ret sim' ->
  exists level k1 v1 k2 v2 front,
    fdiv out (out_max args) = Ret level /\
    Kettle.heat (kettle sim) (heater_power args * level) (sampletime args)
                Kettle.default_efficiency = Ret (k1, v1) /\
    Kettle.cool k1 (sampletime args) (ambient_temp args)
                (heat_loss_factor args) = Ret (k2, v2) /\
    deque_getitem (deque_append (delayed_temps sim) (Kettle.temperature k2)) 0
    = Ret front /\
    sim' = mkSim (name sim) (sut sim) k2
             (deque_append (delayed_temps sim) (Kettle.temperature k2))
             (timestamps sim ++ [ts])
             (heater_temps sim ++ [Kettle.temperature k2])
             (sensor_temps sim ++ [front])
             (outputs sim ++ [out]).
Proof.
  unfold sim_update. intros Hrun.
  apply bind_Ret_inv in Hrun as (level & Hlevel & Hrun).
  apply bind_Ret_inv in Hrun as ([k1 v1] & Hheat & Hrun).
  apply bind_Ret_inv in Hrun as ([k2 v2] & Hcool & Hrun).
  apply bind_Ret_inv in Hrun as (front & Hfront & Hrun).
  injection Hrun as <-.
  exists level, k1, v1, k2, v2, front. repeat split; assumption.
Qed.

Lemma deque_getitem_Ret_inv (d : deque) (i : nat) (x : Q) :
  deque_getitem d i = Ret x -> nth_error (items d) i = Some x.
Proof.
  unfold deque_getitem. destruct (nth_error (items d) i); [|discriminate].
  now intros [= ->].
Qed.

Lemma run_inv_deque_full {S : Type} (N : nat) (T0 : Q) (k : nat)
    (sim : Simulation S) :
  run_inv N T0 k sim -> deque_full (delayed_temps sim).
Proof.
  intros (Hmax & Hitems & _ & Hlen & _). unfold deque_full.
  rewrite Hitems, Hmax, length_skipn, length_app, repeat_length. lia.
Qed.

Lemma run_inv_set_sut {S : Type} (N : nat) (T0 : Q) (k : nat)
    (sim : Simulation S) (c : S) :
  run_inv N T0 k sim -> run_inv N T0 k (set_sut sim c).
Proof. intros Hinv. exact Hinv. Qed.

Lemma sim_update_run_inv {S : Type} (N : nat) (T0 : Q) (k : nat)
    (sim : Simulation S) (ts out : Q) (args : Args) (sim' : Simulation S) :
  (1 <= N)%nat -> run_inv N T0 k sim ->
  sim_update sim ts out args = Ret sim' ->
  run_inv N T0 (Datatypes.S k) sim'.
Proof.
  intros HN Hinv Hrun.
  pose proof (run_inv_deque_full _ _ _ _ Hinv) as Hfull.
  destruct Hinv as (Hmax & Hitems & Hsens & Hlen & Hts & Hout).
  apply sim_update_Ret_inv in Hrun
    as (level & k1 & v1 & k2 & v2 & front & _ & _ & _ & Hfront & ->).
  set (h := Kettle.temperature k2) in *.
  assert (Hitems' :
    items (deque_append (delayed_temps sim) h)
    = skipn (Datatypes.S k) (repeat T0 N ++ heater_temps sim ++ [h])).
  { rewrite deque_append_at_capacity by assumption.
    rewrite Hitems, skipn_S_tl, app_assoc. f_equal.
    rewrite (skipn_app k (repeat T0 N ++ heater_temps sim) [h]).
    replace (k - length (repeat T0 N ++ heater_temps sim))%nat with 0%nat
      by (rewrite length_app, repeat_length; lia).
    reflexivity. }
  apply deque_getitem_Ret_inv in Hfront.
  rewrite Hitems', nth_error_skipn_0 in Hfront.
  destruct N as [|N']; [lia|]. cbn [repeat app nth_error] in Hfront.
  unfold run_inv.
  cbn [delayed_temps heater_temps sensor_temps timestamps outputs].
  replace (Datatypes.S N' - 1)%nat with N' by lia.
  repeat split.
  - rewrite deque_append_maxlen. exact Hmax.
  - exact Hitems'.
  - rewrite (firstn_snoc_nth k _ front Hfront). f_equal.
    rewrite Hsens. replace (Datatypes.S N' - 1)%nat with N' by lia.
    rewrite app_assoc.
    rewrite (firstn_app k (repeat T0 N' ++ heater_temps sim) [h]).
    replace (k - length (repeat T0 N' ++ heater_temps sim))%nat with 0%nat
      by (rewrite length_app, repeat_length; lia).
    cbn [firstn]. now rewrite app_nil_r.
  - rewrite length_app. cbn [length]. lia.
  - rewrite length_app. cbn [length]. lia.
  - rewrite length_app. cbn [length]. lia.
Qed.

Lemma run_inv_record_lengths {S : Type} (N : nat) (T0 : Q) (k : nat)
    (sim : Simulation S) :
  run_inv N T0 k sim -> record_lengths k sim.
Proof.
  intros (_ & _ & Hsens & Hlen & Hts & Hout). unfold record_lengths.
  repeat split; try assumption.
  rewrite Hsens, length_firstn, length_app, repeat_length. lia.
Qed.

Lemma run_inv_sensor_lag {S : Type} (N : nat) (T0 : Q) (k : nat)
    (sim : Simulation S) (i : nat) :
  run_inv N T0 k sim -> (i < k)%nat ->
  ((i < N - 1)%nat -> nth i (sensor_temps sim) 0 = T0) /\
  ((N - 1 <= i)%nat ->
   nth i (sensor_temps sim) 0 = nth (i - (N - 1)) (heater_temps sim) 0).
Proof.
  intros (_ & _ & Hsens & Hlen & _) Hi.
  assert (Hnth : nth i (sensor_temps sim) 0
                 = nth i (repeat T0 (N - 1) ++ heater_temps sim) 0).
  { rewrite Hsens, nth_firstn.
    destruct (Nat.ltb_spec i k); [reflexivity|lia]. }
  rewrite Hnth. split; intros Hcmp.
  - rewrite app_nth1 by (rewrite repeat_length; exact Hcmp).
    now apply nth_repeat_lt.
  - rewrite app_nth2 by (rewrite repeat_length; exact Hcmp).
    now rewrite repeat_length.
Qed.

(** [mapM] relates the runs pointwise. *)
Lemma mapM_Ret_Forall {A B : Type} (f : A -> result B) (P : A -> Prop)
    (R : B -> Prop) (xs : list A) (ys : list B) :
  (forall x y, P x -> f x = Ret y -> R y) ->
  Forall P xs -> mapM f xs = Ret ys -> Forall R ys.
Proof.
  intros Hstep. revert ys.
  induction xs as [|x xs IH]; intros ys HP Hrun; cbn [mapM] in Hrun.
  - injection Hrun as <-. constructor.
  - apply bind_Ret_inv in Hrun as (y & Hy & Hrun).
    apply bind_Ret_inv in Hrun as (ys' & Hys & Hrun).
    injection Hrun as <-. inversion HP as [|? ? Hx Hxs]; subst.
    constructor; [now apply (Hstep x) | now apply IH].
Qed.

(** ** The feedback loop *)

(** The time reached after [n] additions of the sample time. *)
Lemma tick_succ (s : Q) (n : nat) :
  inject_Z (Z.of_nat (S n)) * s == inject_Z (Z.of_nat n) * s + s.
Proof.
  rewrite Nat2Z.inj_succ. unfold Z.succ. rewrite inject_Z_plus. ring.
Qed.

Lemma tick_zero (s : Q) : inject_Z (Z.of_nat 0) * s == 0.
Proof. change (inject_Z (Z.of_nat 0)) with 0. ring. Qed.

Lemma delayed_temps_len_Ret_inv (args : Args) (n : nat) :
  delayed_temps_len args = Ret n ->
  ~ sampletime args == 0 /\
  n = Z.to_nat (Z.max 1 (py_round (delay args / sampletime args))) /\
  (1 <= n)%nat.
Proof.
  unfold delayed_temps_len. intros Hrun.
  apply bind_Ret_inv in Hrun as (q & Hq & Hrun).
  apply fdiv_Ret_inv in Hq as (Hs & ->). injection Hrun as <-.
  repeat split; [assumption | lia].
Qed.

Section FeedbackFacts.
Context {C : Type} `{FeedbackController C}.

Lemma pid_body_Ret_inv (args : Args) (ts : Q) (sim sim' : Simulation C) :
  pid_body args ts sim = Ret sim' ->
  exists observed,
    deque_getitem (delayed_temps sim) 0 = Ret observed /\
    sim_update
      (set_sut sim (fst (calc (sut sim) ts observed (setpoint args)))) ts
      (py_min (py_max (snd (calc (sut sim) ts observed (setpoint args)))
                      (out_min args)) (out_max args))
      args = Ret sim'.
Proof.
  unfold pid_body. intros Hrun.
  apply bind_Ret_inv in Hrun as (observed & Hobs & Hrun).
  exists observed. split; [assumption|].
  destruct (calc (sut sim) ts observed (setpoint args)) as [c o].
  exact Hrun.
Qed.

Lemma pid_body_run_inv (N : nat) (T0 : Q) (k : nat) (args : Args) (ts : Q)
    (sim sim' : Simulation C) :
  (1 <= N)%nat -> run_inv N T0 k sim ->
  pid_body args ts sim = Ret sim' -> run_inv N T0 (S k) sim'.
Proof.
  intros HN Hinv Hrun.
  apply pid_body_Ret_inv in Hrun as (observed & _ & Hrun).
  eapply sim_update_run_inv; [exact HN | | exact Hrun].
  apply run_inv_set_sut. exact Hinv.
Qed.

Lemma simulate_pid_init_run_inv (args : Args) (sims : list (Simulation C)) :
  simulate_pid_init args = Ret sims ->
  exists N,
    delayed_temps_len args = Ret N /\
    Forall (fun sim =>
              run_inv N (kettle_temp args) 0 sim /\
              delayed_temps sim = mkDeque N (repeat (kettle_temp args) N))
           sims.
Proof.
  unfold simulate_pid_init. intros Hrun.
  apply bind_Ret_inv in Hrun as (N & HN & Hrun).
  apply bind_Ret_inv in Hrun as (sims0 & Hsims0 & Hrun).
  injection Hrun as <-. exists N. split; [assumption|].
  apply Forall_map.
  eapply (mapM_Ret_Forall _ (fun _ => True)
            (fun sim : Simulation C =>
               delayed_temps sim = deque_new N /\ timestamps sim = [] /\
               heater_temps sim = [] /\ sensor_temps sim = [] /\
               outputs sim = [])) in Hsims0.
  - eapply Forall_impl; [|exact Hsims0].
    intros sim (Hd & Hts & Hh & Hs & Ho).
    unfold run_inv, set_delayed_temps.
    cbn [delayed_temps timestamps heater_temps sensor_temps outputs].
    rewrite Hd, Hts, Hh, Hs, Ho. cbn [deque_new maxlen].
    rewrite deque_initial_fill. cbn [maxlen items firstn skipn length].
    rewrite app_nil_r. repeat split; reflexivity.
  - intros [[[nm kp] ki] kd] sim _ Hsim.
    apply bind_Ret_inv in Hsim as (k & _ & Hsim). injection Hsim as <-.
    cbn. repeat split; reflexivity.
  - apply Forall_forall. intros; exact I.
Qed.

Lemma simulate_pid_loop_run_inv (N : nat) (T0 : Q) (args : Args) :
  (1 <= N)%nat ->
  forall fuel k ts sims sims',
    Forall (run_inv N T0 k) sims ->
    simulate_pid_loop fuel args ts sims = Some (Ret sims') ->
    exists n,
      Forall (run_inv N T0 (k + n)) sims' /\
      inject_Z (interval args * 60)
      <= ts + inject_Z (Z.of_nat n) * sampletime args /\
      (forall m, (m < n)%nat ->
         ts + inject_Z (Z.of_nat m) * sampletime args
         < inject_Z (interval args * 60)).
Proof.
  intros HN. induction fuel as [|fuel IH]; intros k ts sims sims' Hinv Hrun;
    cbn [simulate_pid_loop] in Hrun;
    destruct (Qlt_le_dec ts (inject_Z (interval args * 60))) as [Hlt | Hge];
    try discriminate.
  - injection Hrun as <-. exists 0%nat. rewrite Nat.add_0_r.
    split; [assumption|]. split; [rewrite tick_zero; lra | intros m Hm; lia].
  - destruct (mapM (pid_body args (ts + sampletime args)) sims)
      as [sims1|e] eqn:Hstep; [|discriminate].
    apply (mapM_Ret_Forall _ (run_inv N T0 k) (run_inv N T0 (S k))) in Hstep;
      [| intros x y Hx Hy; eapply pid_body_run_inv; eassumption | assumption].
    destruct (IH (S k) _ _ _ Hstep Hrun) as (n & Hfin & Hstop & Hgo).
    exists (S n). replace (k + S n)%nat with (S k + n)%nat by lia.
    split; [assumption|]. split.
    + rewrite tick_succ. lra.
    + intros [|m] Hm.
      * rewrite tick_zero. lra.
      * rewrite tick_succ. specialize (Hgo m ltac:(lia)). lra.
  - injection Hrun as <-. exists 0%nat. rewrite Nat.add_0_r.
    split; [assumption|]. split; [rewrite tick_zero; lra | intros m Hm; lia].
Qed.

End FeedbackFacts.

Lemma simulate_pid_run_inv {C : Type} `{FeedbackController C} (args : Args)
    (fuel : nat) (sims : list (Simulation C)) :
  simulate_pid fuel args = Some (Ret sims) ->
  exists N n,
    delayed_temps_len args = Ret N /\
    Forall (run_inv N (kettle_temp args) n) sims /\
    inject_Z (interval args * 60) <= inject_Z (Z.of_nat n) * sampletime args /\
    (forall m, (m < n)%nat ->
       inject_Z (Z.of_nat m) * sampletime args < inject_Z (interval args * 60)).
Proof.
  unfold simulate_pid. intros Hrun.
  destruct (simulate_pid_init args) as [sims0|e] eqn:Hinit; [|discriminate].
  apply simulate_pid_init_run_inv in Hinit as (N & HN & Hinit).
  pose proof (delayed_temps_len_Ret_inv _ _ HN) as (_ & _ & Hpos).
  assert (Hinv0 : Forall (run_inv N (kettle_temp args) 0) sims0).
  { eapply Forall_impl; [|exact Hinit]. now intros sim (Hsim & _). }
  destruct (simulate_pid_loop_run_inv N (kettle_temp args) args Hpos
              fuel 0%nat 0 sims0 sims Hinv0 Hrun) as (n & Hfin & Hstop & Hgo).
  exists N, n. split; [assumption|]. split; [assumption|]. split.
  - lra.
  - intros m Hm. specialize (Hgo m Hm). lra.
Qed.

Lemma pid_body_record_lengths {C : Type} `{FeedbackController C}
    (args : Args) (ts : Q) (n : nat) (sim sim' : Simulation C) :
  record_lengths n sim -> pid_body args ts sim = Ret sim' ->
  record_lengths (S n) sim'.
Proof.
  intros (Hts & Hout & Hsens & Hheat) Hrun.
  apply pid_body_Ret_inv in Hrun as (observed & _ & Hrun).
  apply sim_update_Ret_inv in Hrun
    as (level & k1 & v1 & k2 & v2 & front & _ & _ & _ & _ & ->).
  unfold record_lengths.
  cbn [timestamps outputs sensor_temps heater_temps set_sut].
  rewrite !length_app. cbn [length]. lia.
Qed.

(** The stopping rule on the accumulated time: from step [k] on, the loop
    ends at the first step count whose [clock] is not below the limit. *)
Lemma simulate_pid_loop_stop_rule {C : Type} `{FeedbackController C}
    (args : Args) :
  forall fuel k (sims sims' : list (Simulation C)),
    Forall (record_lengths k) sims ->
    simulate_pid_loop fuel args (clock (sampletime args) k) sims
    = Some (Ret sims') ->
    exists n,
      (k <= n)%nat /\ Forall (record_lengths n) sims' /\
      ~ clock (sampletime args) n < inject_Z (interval args * 60) /\
      (forall m, (k <= m < n)%nat ->
         clock (sampletime args) m < inject_Z (interval args * 60)).
Proof.
  induction fuel as [|fuel IH]; intros k sims sims' Hlen Hrun;
    cbn [simulate_pid_loop] in Hrun;
    destruct (Qlt_le_dec (clock (sampletime args) k)
                (inject_Z (interval args * 60))) as [Hlt | Hge];
    try discriminate.
  - injection Hrun as <-. exists k. split; [lia|]. split; [assumption|].
    split; [lra | intros m Hm; lia].
  - destruct (mapM (pid_body args (clock (sampletime args) k + sampletime args))
                sims) as [sims1|e] eqn:Hstep; [|discriminate].
    apply (mapM_Ret_Forall _ (record_lengths k) (record_lengths (S k)))
      in Hstep;
      [| intros x y Hx Hy; eapply pid_body_record_lengths; eassumption
       | assumption].
    change (clock (sampletime args) k + sampletime args)
      with (clock (sampletime args) (S k)) in Hrun.
    destruct (IH (S k) _ _ Hstep Hrun) as (n & Hn & Hfin & Hstop & Hgo).
    exists n. split; [lia|]. split; [assumption|]. split; [assumption|].
    intros m Hm. destruct (Nat.eq_dec m k) as [-> | Hne];
      [exact Hlt | apply Hgo; lia].
  - injection Hrun as <-. exists k. split; [lia|]. split; [assumption|].
    split; [lra | intros m Hm; lia].
Qed.

(** ** The auto-tune loop *)


Section AutotuneFacts.
Context {A : Type} `{AutotuneController A}.

Lemma simulate_autotune_init_run_inv (args : Args) (sim : Simulation A) :
  simulate_autotune_init args = Ret sim ->
  exists N k,
    delayed_temps_len args = Ret N /\
    Kettle.__init__ (diameter args) (volume args) (kettle_temp args)
                    (kettle_mass args) = Ret k /\
    sim = mkSim "autotune"%string
            (PIDAutotune (setpoint args) 100 (sampletime args)
                         (out_min args) (out_max args))
            k (mkDeque N (repeat (kettle_temp args) N)) [] [] [] [] /\
    run_inv N (kettle_temp args) 0 sim.
Proof.
  unfold simulate_autotune_init, delayed_temps_len. intros Hrun.
  apply bind_Ret_inv in Hrun as (q & Hq & Hrun).
  apply bind_Ret_inv in Hrun as (k & Hk & Hrun).
  rewrite deque_initial_fill in Hrun. injection Hrun as <-.
  exists (Z.to_nat (Z.max 1 (py_round q))), k.
  rewrite Hq. cbn [bind]. split; [reflexivity|]. split; [assumption|].
  split; [reflexivity|].
  unfold run_inv. cbn [delayed_temps heater_temps sensor_temps timestamps
                       outputs maxlen items firstn skipn length].
  rewrite app_nil_r. repeat split; reflexivity.
Qed.

Lemma autotune_test_Ret_inv (ts : Q) (sim sim1 : Simulation A) (done : bool) :
  autotune_test ts sim = Ret (sim1, done) ->
  exists observed,
    deque_getitem (delayed_temps sim) 0 = Ret observed /\
    sim1 = set_sut sim (fst (run (sut sim) ts observed)) /\
    done = snd (run (sut sim) ts observed).
Proof.
  unfold autotune_test. intros Hrun.
  apply bind_Ret_inv in Hrun as (observed & Hobs & Hrun).
  exists observed. split; [assumption|].
  destruct (run (sut sim) ts observed) as [c d].
  injection Hrun as <- <-. split; reflexivity.
Qed.

Lemma autotune_body_Ret_inv (args : Args) (ts ts' : Q) (sim sim' : Simulation A) :
  autotune_body args ts sim = Ret (ts', sim') ->
  ts' = ts + sampletime args /\
  sim_update sim (ts + sampletime args) (output (sut sim)) args = Ret sim'.
Proof.
  unfold autotune_body. intros Hrun.
  apply bind_Ret_inv in Hrun as (sim2 & Hsim2 & Hrun).
  injection Hrun as <- <-. split; [reflexivity | assumption].
Qed.

Lemma simulate_autotune_loop_run_inv (N : nat) (T0 : Q) (args : Args) :
  (1 <= N)%nat ->
  forall fuel k ts sim ts' sim',
    run_inv N T0 k sim ->
    simulate_autotune_loop fuel args ts sim = Some (Ret (ts', sim')) ->
    exists n, run_inv N T0 (k + n) sim'.
Proof.
  intros HN. induction fuel as [|fuel IH]; intros k ts sim ts' sim' Hinv Hrun;
    cbn [simulate_autotune_loop] in Hrun; [discriminate|].
  destruct (autotune_test ts sim) as [[sim1 [|]]|e] eqn:Htest;
    [| |discriminate].
  - injection Hrun as <- <-. exists 0%nat. rewrite Nat.add_0_r.
    apply autotune_test_Ret_inv in Htest as (observed & _ & -> & _).
    apply run_inv_set_sut. exact Hinv.
  - destruct (autotune_body args ts sim1) as [[ts2 sim2]|e] eqn:Hbody;
      [|discriminate].
    apply autotune_test_Ret_inv in Htest as (observed & _ & -> & _).
    apply autotune_body_Ret_inv in Hbody as (_ & Hbody).
    eapply sim_update_run_inv in Hbody;
      [| exact HN | apply run_inv_set_sut; exact Hinv].
    destruct (IH (S k) _ _ _ _ Hbody Hrun) as (n & Hfin).
    exists (S n). replace (k + S n)%nat with (S k + n)%nat by lia. exact Hfin.
Qed.

Lemma simulate_autotune_run_inv (args : Args) (fuel : nat) (ts : Q)
    (sim : Simulation A) :
  simulate_autotune fuel args = Some (Ret (ts, sim)) ->
  exists N n,
    delayed_temps_len args = Ret N /\ run_inv N (kettle_temp args) n sim.
Proof.
  unfold simulate_autotune. intros Hrun.
  destruct (simulate_autotune_init args) as [sim0|e] eqn:Hinit; [|discriminate].
  apply simulate_autotune_init_run_inv in Hinit as (N & k & HN & _ & _ & Hinv).
  pose proof (delayed_temps_len_Ret_inv _ _ HN) as (_ & _ & Hpos).
  destruct (simulate_autotune_loop_run_inv N (kettle_temp args) args Hpos
              fuel 0%nat 0 sim0 ts sim Hinv Hrun) as (n & Hfin).
  exists N, n. split; assumption.
Qed.

End AutotuneFacts.

(** ** The run records *)

(** C9, the counterexample.  In binary64, with a sample time of 0.4 s and an
    interval of one minute, the quotient [60 / 0.4] is exactly 150 and the
    run records 151 steps: after 150 additions of 0.4 the timestamp is
    59.999999999999851, still below 60. *)
Lemma feedback_length_is_not_the_quotient :
  match @B64.simulate_pid _ (B64.ConstPID_feedback 50) 200 B64.fine_step_args
  with
  | Some (B64.Ret [sim]) =>
      B64.fdiv 60 (B64.sampletime B64.fine_step_args) = B64.Ret 150%float /\
      length (B64.timestamps sim) = 151%nat /\
      length (B64.outputs sim) = 151%nat /\
      length (B64.sensor_temps sim) = 151%nat /\
      length (B64.heater_temps sim) = 151%nat /\
      B64.float_lt_int (nth 149 (B64.timestamps sim) 0%float) 60 = true
  | _ => False
  end.
Proof. vm_compute. repeat split. Qed.

(** C9, as the code has it.  In feedback mode the four recorded sequences of
    every run have equal lengths: they are empty after the set-up and every
    step of a run extends four sequences of one length to four sequences of
    the next length.  When the loop has ended, their common length [n] is
    the one the stepping rule gives on the accumulated timestamp: [n]
    additions of the sample time to 0 reach a value that is not below
    [interval * 60], and fewer additions stay below it. *)
Theorem feedback_record_lengths {C : Type} `{FeedbackController C}
    (args : Args) :
  (forall fuel (sims : list (Simulation C)),
     simulate_pid fuel args = Some (Ret sims) ->
     exists n,
       Forall (record_lengths n) sims /\
       ~ clock (sampletime args) n < inject_Z (interval args * 60) /\
       (forall m, (m < n)%nat ->
          clock (sampletime args) m < inject_Z (interval args * 60))) /\
  (forall sims : list (Simulation C),
     simulate_pid_init args = Ret sims -> Forall (record_lengths 0) sims) /\
  (forall ts n (sim sim' : Simulation C),
     record_lengths n sim -> pid_body args ts sim = Ret sim' ->
     record_lengths (S n) sim').
Proof.
  assert (Hinit0 : forall sims : list (Simulation C),
             simulate_pid_init args = Ret sims ->
             Forall (record_lengths 0) sims).
  { intros sims Hinit.
    apply simulate_pid_init_run_inv in Hinit as (N & _ & Hall).
    eapply Forall_impl; [|exact Hall].
    intros sim (Hsim & _). exact (run_inv_record_lengths _ _ _ _ Hsim). }
  split; [|split].
  - intros fuel sims Hrun. unfold simulate_pid in Hrun.
    destruct (simulate_pid_init args) as [sims0|e] eqn:Hinit; [|discriminate].
    destruct (simulate_pid_loop_stop_rule args fuel 0%nat sims0 sims
                (Hinit0 _ eq_refl) Hrun) as (n & _ & Hfin & Hstop & Hgo).
    exists n. split; [exact Hfin|]. split; [exact Hstop|].
    intros m Hm. apply Hgo. lia.
  - exact Hinit0.
  - intros ts n sim sim'. apply pid_body_record_lengths.
Qed.

Lemma feedback_record_lengths_witness :
  exists sims n,
    @simulate_pid _ (ConstPID_feedback 50) 12 scenario_args = Some (Ret sims) /\
    Forall (record_lengths n) sims /\
    ~ clock 5 n < 60 /\ clock 5 (n - 1) < 60.
Proof.
  assert (Hr : returned (@simulate_pid _ (ConstPID_feedback 50) 12
                           scenario_args) = true) by (lazy; reflexivity).
  destruct (@simulate_pid _ (ConstPID_feedback 50) 12 scenario_args)
    as [[sims|e]|] eqn:Hrun; try discriminate Hr.
  destruct (proj1 (@feedback_record_lengths _ (ConstPID_feedback 50)
                     scenario_args) 12%nat sims Hrun)
    as (n & Hlen & Hstop & Hgo).
  exists sims, n. split; [reflexivity|]. split; [exact Hlen|].
  split; [exact Hstop|].
  apply Hgo. destruct n as [|n]; [|lia].
  exfalso. apply Hstop. reflexivity.
Defined.

(** C2, the counterexample: in the scenario (capacity 3, twelve steps, a
    controller that answers 50) the third sensor reading is not the initial
    temperature, and the fourth is not the first heater temperature. *)
Lemma sensor_lag_is_not_three :
  match @simulate_pid _ (ConstPID_feedback 50) 12 scenario_args with
  | Some (Ret [sim]) =>
      delayed_temps_len scenario_args = Ret 3%nat /\
      length (sensor_temps sim) = 12%nat /\
      ~ nth 2 (sensor_temps sim) 0 == kettle_temp scenario_args /\
      ~ nth 3 (sensor_temps sim) 0 == nth 0 (heater_temps sim) 0
  | _ => False
  end.
Proof.
  lazy. repeat split; try reflexivity; intros Heq; discriminate Heq.
Qed.

(** C2, as the code has it.  With a delay buffer of capacity 3 the recorded
    sensor temperatures lag the recorded heater temperatures by two steps:
    the first two readings are the initial temperature and, from index 2 on,
    [sensor_temps[i]] is [heater_temps[i - 2]]. *)
Theorem sensor_lags_heater_by_two {C : Type} `{FeedbackController C}
    (args : Args) (fuel : nat) (sims : list (Simulation C)) :
  delayed_temps_len args = Ret 3%nat ->
  simulate_pid fuel args = Some (Ret sims) ->
  Forall (fun sim =>
            length (sensor_temps sim) = length (heater_temps sim) /\
            forall i, (i < length (sensor_temps sim))%nat ->
              ((i < 2)%nat ->
               nth i (sensor_temps sim) 0 = kettle_temp args) /\
              ((2 <= i)%nat ->
               nth i (sensor_temps sim) 0
               = nth (i - 2) (heater_temps sim) 0))
         sims.
Proof.
  intros Hcap Hrun.
  apply simulate_pid_run_inv in Hrun as (N & n & HN & Hinv & _).
  rewrite Hcap in HN. injection HN as <-.
  eapply Forall_impl; [|exact Hinv].
  intros sim Hsim.
  pose proof (run_inv_record_lengths _ _ _ _ Hsim) as (_ & _ & Hs & Hh).
  split; [congruence|].
  intros i Hi. rewrite Hs in Hi.
  exact (run_inv_sensor_lag 3 (kettle_temp args) n sim i Hsim Hi).
Qed.

Lemma sensor_lags_heater_by_two_witness :
  exists sims,
    @simulate_pid _ (ConstPID_feedback 50) 12 scenario_args = Some (Ret sims) /\
    Forall (fun sim =>
              length (sensor_temps sim) = length (heater_temps sim) /\
              forall i, (i < length (sensor_temps sim))%nat ->
                ((i < 2)%nat -> nth i (sensor_temps sim) 0 = 40) /\
                ((2 <= i)%nat ->
                 nth i (sensor_temps sim) 0
                 = nth (i - 2) (heater_temps sim) 0))
           sims.
Proof.
  assert (Hr : returned (@simulate_pid _ (ConstPID_feedback 50) 12
                           scenario_args) = true) by (lazy; reflexivity).
  destruct (@simulate_pid _ (ConstPID_feedback 50) 12 scenario_args)
    as [[sims|e]|] eqn:Hrun; try discriminate Hr.
  exists sims. split; [reflexivity|].
  apply (@sensor_lags_heater_by_two _ (ConstPID_feedback 50)
           scenario_args 12 sims); [reflexivity | exact Hrun].
Defined.

(** ** The delay buffer *)

(** C8. When the capacity expression [max(1, round(delay / sampletime))]
    returns [N]: [N] is at least 1, it is that expression on the quotient the
    division returned, and it is 1 when the quotient rounds to zero or below.
    In both modes a set-up that returns leaves the buffer holding exactly [N]
    copies of the initial temperature; every [sim_update] that returns on a
    full buffer keeps its bound and leaves it full; and at the end of a
    returned run of either mode the buffer still holds exactly [N]
    samples. *)
Theorem delay_buffer_at_capacity {C : Type} `{FeedbackController C}
    {A : Type} `{AutotuneController A} (args : Args) (N : nat) :
  delayed_temps_len args = Ret N ->
  (1 <= N)%nat /\
  (exists q,
     fdiv (delay args) (sampletime args) = Ret q /\
     N = Z.to_nat (Z.max 1 (py_round q)) /\
     ((py_round q <= 0)%Z -> N = 1%nat)) /\
  (forall sim : Simulation A,
     simulate_autotune_init args = Ret sim ->
     delayed_temps sim = mkDeque N (repeat (kettle_temp args) N)) /\
  (forall sims : list (Simulation C),
     simulate_pid_init args = Ret sims ->
     Forall (fun sim =>
               delayed_temps sim = mkDeque N (repeat (kettle_temp args) N))
            sims) /\
  (forall (S : Type) (sim sim' : Simulation S) ts out,
     deque_full (delayed_temps sim) ->
     sim_update sim ts out args = Ret sim' ->
     maxlen (delayed_temps sim') = maxlen (delayed_temps sim) /\
     deque_full (delayed_temps sim')) /\
  (forall fuel (sims : list (Simulation C)),
     simulate_pid fuel args = Some (Ret sims) ->
     Forall (fun sim =>
               maxlen (delayed_temps sim) = N /\
               length (items (delayed_temps sim)) = N)
            sims) /\
  (forall fuel ts (sim : Simulation A),
     simulate_autotune fuel args = Some (Ret (ts, sim)) ->
     maxlen (delayed_temps sim) = N /\
     length (items (delayed_temps sim)) = N).
Proof.
  intros HN. repeat apply conj.
  - apply delayed_temps_len_Ret_inv in HN as (_ & _ & Hpos). exact Hpos.
  - unfold delayed_temps_len in HN.
    apply bind_Ret_inv in HN as (q & Hq & HN). injection HN as <-.
    exists q. split; [exact Hq|]. split; [reflexivity | intros Hz; lia].
  - intros sim Hinit.
    apply simulate_autotune_init_run_inv in Hinit as (N' & k & HN' & _ & -> & _).
    rewrite HN in HN'. injection HN' as <-. reflexivity.
  - intros sims Hinit.
    apply simulate_pid_init_run_inv in Hinit as (N' & HN' & Hall).
    rewrite HN in HN'. injection HN' as <-.
    eapply Forall_impl; [|exact Hall]. now intros sim (_ & Hsim).
  - intros S sim sim' ts out Hfull Hrun.
    apply sim_update_Ret_inv in Hrun
      as (level & k1 & v1 & k2 & v2 & front & _ & _ & _ & _ & ->).
    cbn [delayed_temps]. split;
      [apply deque_append_maxlen | now apply deque_append_full].
  - intros fuel sims Hrun.
    apply simulate_pid_run_inv in Hrun as (N' & n & HN' & Hinv & _).
    rewrite HN in HN'. injection HN' as <-.
    eapply Forall_impl; [|exact Hinv].
    intros sim Hsim. pose proof (run_inv_deque_full _ _ _ _ Hsim) as Hfull.
    destruct Hsim as (Hmax & _). unfold deque_full in Hfull.
    split; congruence.
  - intros fuel ts sim Hrun.
    apply simulate_autotune_run_inv in Hrun as (N' & n & HN' & Hsim).
    rewrite HN in HN'. injection HN' as <-.
    pose proof (run_inv_deque_full _ _ _ _ Hsim) as Hfull.
    destruct Hsim as (Hmax & _). unfold deque_full in Hfull.
    split; congruence.
Qed.

Lemma delay_buffer_at_capacity_witness :
  (exists q, fdiv 15 5 = Ret q /\ 3%nat = Z.to_nat (Z.max 1 (py_round q))) /\
  (exists sim : Simulation CountdownTuner,
     @simulate_autotune_init _ (CountdownTuner_autotune 4 50) scenario_args
     = Ret sim /\
     delayed_temps sim = mkDeque 3 [40; 40; 40]) /\
  (exists ts (sim : Simulation CountdownTuner),
     @simulate_autotune _ (CountdownTuner_autotune 4 50) 5 scenario_args
     = Some (Ret (ts, sim)) /\
     maxlen (delayed_temps sim) = 3%nat /\
     length (items (delayed_temps sim)) = 3%nat).
Proof.
  destruct (@delay_buffer_at_capacity _ (ConstPID_feedback 50)
              _ (CountdownTuner_autotune 4 50) scenario_args 3 eq_refl)
    as (_ & (q & Hq & Hcap & _) & Hfill & _ & _ & _ & Hend).
  split; [exists q; split; [exact Hq | exact Hcap]|]. split.
  - destruct (@simulate_autotune_init _ (CountdownTuner_autotune 4 50)
                scenario_args) as [sim|e] eqn:Hinit;
      [|vm_compute in Hinit; discriminate Hinit].
    exists sim. split; [reflexivity | exact (Hfill sim eq_refl)].
  - assert (Hr : returned (@simulate_autotune _ (CountdownTuner_autotune 4 50)
                             5 scenario_args) = true) by (lazy; reflexivity).
    destruct (@simulate_autotune _ (CountdownTuner_autotune 4 50) 5
                scenario_args) as [[[ts sim]|e]|] eqn:Hrun;
      try discriminate Hr.
    exists ts, sim. split; [reflexivity | exact (Hend 5%nat ts sim Hrun)].
Defined.

(** ** Output levels *)

Lemma py_min_le_r (a b : Q) : py_min a b <= b.
Proof.
  unfold py_min. destruct (Qcompare_spec a b) as [E | E | E]; lra.
Qed.

Lemma py_max_ge_r (a b : Q) : b <= py_max a b.
Proof.
  unfold py_max. destruct (Qcompare_spec a b) as [E | E | E]; lra.
Qed.

Lemma clamp_lower (raw lo hi : Q) : lo <= hi -> lo <= py_min (py_max raw lo) hi.
Proof.
  intros Hle. pose proof (py_max_ge_r raw lo) as Hm.
  unfold py_min. destruct (Qcompare_spec (py_max raw lo) hi); lra.
Qed.

Lemma clamp_inside (raw lo hi : Q) :
  lo <= raw <= hi -> py_min (py_max raw lo) hi = raw.
Proof.
  intros [Hlo Hhi]. unfold py_max.
  destruct (Qcompare_spec raw lo) as [E | E | E]; try lra;
    unfold py_min; destruct (Qcompare_spec raw hi) as [F | F | F];
    try lra; reflexivity.
Qed.

(** What [sim_update] applies and records. *)
Lemma sim_update_applies {S : Type} (sim : Simulation S) (ts out : Q)
    (args : Args) (sim' : Simulation S) :
  sim_update sim ts out args = Ret sim' ->
  exists k1 v1 v2,
    ~ out_max args == 0 /\
    Kettle.heat (kettle sim) (heater_power args * (out / out_max args))
                (sampletime args) Kettle.default_efficiency = Ret (k1, v1) /\
    Kettle.cool k1 (sampletime args) (ambient_temp args)
                (heat_loss_factor args) = Ret (kettle sim', v2) /\
    outputs sim' = outputs sim ++ [out] /\
    sut sim' = sut sim.
Proof.
  intros Hrun. apply sim_update_Ret_inv in Hrun
    as (level & k1 & v1 & k2 & v2 & front & Hl & Hh & Hc & _ & ->).
  apply fdiv_Ret_inv in Hl as (Hmax & ->).
  exists k1, v1, v2. cbn [kettle outputs sut]. repeat split; assumption.
Qed.

(** C1, the counterexample: with [--maxout 50] and a tuner whose output is
    50, the heater temperature recorded by the first step is not the one that
    half of the heater power ([50 / 100]) produces. *)
Lemma autotune_power_is_not_percent :
  match @simulate_autotune _ (CountdownTuner_autotune 1 50) 2 half_range_args,
        first_step_temperature half_range_args (50 / 100) with
  | Some (Ret (_, sim)), Ret T =>
      outputs sim = [50] /\
      length (heater_temps sim) = 1%nat /\
      ~ nth 0 (heater_temps sim) 0 == T
  | _, _ => False
  end.
Proof.
  lazy. repeat split; intros Heq; discriminate Heq.
Qed.

(** C1, as the code has it.  Every auto-tune step heats the kettle with
    [heater_power * (output / out_max)], the conversion of the feedback mode:
    the divisor is the configured [out_max], which must not be zero, and the
    applied power is [heater_power * (output / 100)] when [out_max] is 100. *)
Theorem autotune_power_uses_out_max {A : Type} `{AutotuneController A}
    (args : Args) (ts ts' : Q) (sim sim' : Simulation A) :
  autotune_body args ts sim = Ret (ts', sim') ->
  exists k1 v1 v2,
    ~ out_max args == 0 /\
    Kettle.heat (kettle sim)
                (heater_power args * (output (sut sim) / out_max args))
                (sampletime args) Kettle.default_efficiency = Ret (k1, v1) /\
    Kettle.cool k1 (sampletime args) (ambient_temp args)
                (heat_loss_factor args) = Ret (kettle sim', v2) /\
    (out_max args == 100 ->
     heater_power args * (output (sut sim) / out_max args)
     == heater_power args * (output (sut sim) / 100)).
Proof.
  intros Hrun. apply autotune_body_Ret_inv in Hrun as (_ & Hrun).
  apply sim_update_applies in Hrun as (k1 & v1 & v2 & Hmax & Hh & Hc & _).
  exists k1, v1, v2. repeat split; try assumption.
  intros H100. rewrite H100. reflexivity.
Qed.

Lemma autotune_power_uses_out_max_witness :
  exists ts' sim' k1 v1 v2,
    @autotune_body _ (CountdownTuner_autotune 1 50) half_range_args 0
      (tuner_start 50) = Ret (ts', sim') /\
    Kettle.heat (kettle (tuner_start 50)) (6 * (50 / 50)) 5
                Kettle.default_efficiency = Ret (k1, v1) /\
    Kettle.cool k1 5 20 1 = Ret (kettle sim', v2).
Proof.
  destruct (@autotune_body _ (CountdownTuner_autotune 1 50) half_range_args 0
              (tuner_start 50)) as [[ts' sim']|e] eqn:Hbody;
    [|vm_compute in Hbody; discriminate Hbody].
  destruct (@autotune_power_uses_out_max _ (CountdownTuner_autotune 1 50)
              half_range_args 0 ts' (tuner_start 50) sim' Hbody)
    as (k1 & v1 & v2 & _ & Hheat & Hcool & _).
  exists ts', sim', k1, v1, v2.
  split; [reflexivity|]. split; [exact Hheat | exact Hcool].
Defined.

(** C3, the counterexample: in auto-tune mode, with outputs bounded by
    [0, 100], a tuner whose output is 150 has 150 recorded, and the heater
    temperature of the step is the one that one and a half times the heater
    power produces, not the one of the clamped level. *)
Lemma autotune_output_is_not_clamped :
  match @simulate_autotune _ (CountdownTuner_autotune 1 150) 2 scenario_args,
        first_step_temperature scenario_args (150 / 100),
        first_step_temperature scenario_args (100 / 100) with
  | Some (Ret (_, sim)), Ret Traw, Ret Tclamped =>
      outputs sim = [150] /\
      ~ 150 <= out_max scenario_args /\
      length (heater_temps sim) = 1%nat /\
      nth 0 (heater_temps sim) 0 == Traw /\
      ~ nth 0 (heater_temps sim) 0 == Tclamped
  | _, _, _ => False
  end.
Proof.
  lazy. repeat split; try reflexivity;
    try (intros Heq; discriminate Heq);
    intros Hle; apply Hle; reflexivity.
Qed.

(** C3, as the code has it.  In feedback mode every step clamps the value
    returned by [calc] with [min(max(output, out_min), out_max)] and it is the
    clamped value that is converted to heater power and appended to
    [outputs]; the clamped value is at most [out_max], at least [out_min] when
    [out_min <= out_max], and the raw value when that already lies within the
    bounds.  In auto-tune mode every step converts and records the
    controller's [output] as it is. *)
Theorem output_clamped_in_feedback_mode {C : Type} `{FeedbackController C}
    {A : Type} `{AutotuneController A} (args : Args) :
  (forall ts (sim sim' : Simulation C),
     pid_body args ts sim = Ret sim' ->
     exists observed k1 v1 v2,
       let raw := snd (calc (sut sim) ts observed (setpoint args)) in
       let clamped := py_min (py_max raw (out_min args)) (out_max args) in
       deque_getitem (delayed_temps sim) 0 = Ret observed /\
       outputs sim' = outputs sim ++ [clamped] /\
       Kettle.heat (kettle sim)
                   (heater_power args * (clamped / out_max args))
                   (sampletime args) Kettle.default_efficiency
       = Ret (k1, v1) /\
       Kettle.cool k1 (sampletime args) (ambient_temp args)
                   (heat_loss_factor args) = Ret (kettle sim', v2) /\
       clamped <= out_max args /\
       (out_min args <= out_max args -> out_min args <= clamped) /\
       (out_min args <= raw <= out_max args -> clamped = raw)) /\
  (forall ts ts' (sim sim' : Simulation A),
     autotune_body args ts sim = Ret (ts', sim') ->
     exists k1 v1 v2,
       outputs sim' = outputs sim ++ [output (sut sim)] /\
       Kettle.heat (kettle sim)
                   (heater_power args * (output (sut sim) / out_max args))
                   (sampletime args) Kettle.default_efficiency
       = Ret (k1, v1) /\
       Kettle.cool k1 (sampletime args) (ambient_temp args)
                   (heat_loss_factor args) = Ret (kettle sim', v2)).
Proof.
  split.
  - intros ts sim sim' Hrun.
    apply pid_body_Ret_inv in Hrun as (observed & Hobs & Hrun).
    apply sim_update_applies in Hrun as (k1 & v1 & v2 & _ & Hh & Hc & Ho & _).
    exists observed, k1, v1, v2. cbn zeta.
    split; [assumption|]. split; [exact Ho|]. split; [exact Hh|].
    split; [exact Hc|]. split; [apply py_min_le_r|].
    split; [apply clamp_lower | apply clamp_inside].
  - intros ts ts' sim sim' Hrun.
    apply autotune_body_Ret_inv in Hrun as (_ & Hrun).
    apply sim_update_applies in Hrun as (k1 & v1 & v2 & _ & Hh & Hc & Ho & _).
    exists k1, v1, v2. repeat split; assumption.
Qed.

Lemma output_clamped_in_feedback_mode_witness :
  exists sim',
    @pid_body _ (ConstPID_feedback 150) scenario_args 5 (feedback_start 150)
    = Ret sim' /\
    outputs sim' = [100].
Proof.
  destruct (@pid_body _ (ConstPID_feedback 150) scenario_args 5
              (feedback_start 150)) as [sim'|e] eqn:Hbody;
    [|vm_compute in Hbody; discriminate Hbody].
  destruct (@output_clamped_in_feedback_mode _ (ConstPID_feedback 150)
              _ (CountdownTuner_autotune 1 150) scenario_args) as (Hfb & _).
  destruct (Hfb 5 (feedback_start 150) sim' Hbody)
    as (observed & k1 & v1 & v2 & _ & Hout & _).
  exists sim'. split; [reflexivity | exact Hout].
Defined.

(** * Further properties of the thermal model *)

(** X1. [heat] raises exactly when the thermal mass is zero, [cool] exactly when
    the duration or the thermal mass is zero, and the exception is always
    [ZeroDivisionError]. *)
Theorem kettle_raises_exactly_on_zero_divisor (k : Kettle.t) (p d e a f : Q) :
  (Kettle.heat k p d e = Raise ZeroDivisionError
   <-> Kettle.thermal_mass k == 0) /\
  (Kettle.cool k d a f = Raise ZeroDivisionError
   <-> d == 0 \/ Kettle.thermal_mass k == 0) /\
  (forall x, Kettle.heat k p d e = Raise x -> x = ZeroDivisionError) /\
  (forall x, Kettle.cool k d a f = Raise x -> x = ZeroDivisionError).
Proof.
  destruct (Qeq_dec (Kettle.thermal_mass k) 0) as [HM | HM].
  - rewrite (KettleFacts.heat_zero k p d e HM).
    destruct (Qeq_dec d 0) as [Hd | Hd].
    + rewrite (KettleFacts.cool_zero_duration k d a f Hd).
      repeat split; intros; try congruence; auto.
    + rewrite (KettleFacts.cool_zero_mass k d a f Hd HM).
      repeat split; intros; try congruence; auto.
  - rewrite (KettleFacts.heat_nonzero k p d e HM).
    destruct (Qeq_dec d 0) as [Hd | Hd].
    + rewrite (KettleFacts.cool_zero_duration k d a f Hd).
      repeat split; intros; try congruence; try discriminate; auto.
    + destruct (KettleFacts.cool_nonzero k d a f Hd HM) as (T' & -> & _).
      repeat split; intros; try discriminate; tauto.
Qed.

(** X2. On a valid kettle, with a duration and an efficiency that are not
    negative, [heat] is monotone in the power: of two calls from one state
    that return, the one with more power does not end colder. *)
Theorem heat_monotone_in_power (k : Kettle.t) (p1 p2 d e : Q)
    (k1 k2 : Kettle.t) (v1 v2 : Q) :
  Kettle.valid k -> 0 <= d -> 0 <= e -> p1 <= p2 ->
  Kettle.heat k p1 d e = Ret (k1, v1) ->
  Kettle.heat k p2 d e = Ret (k2, v2) ->
  v1 <= v2 /\ Kettle.temperature k1 <= Kettle.temperature k2.
Proof.
  intros Hv Hd He Hp H1 H2.
  pose proof (KettleFacts.thermal_mass_pos k Hv) as HM.
  assert (HM0 : ~ Kettle.thermal_mass k == 0) by lra.
  rewrite (KettleFacts.heat_nonzero k p1 d e HM0) in H1.
  rewrite (KettleFacts.heat_nonzero k p2 d e HM0) in H2.
  injection H1 as <- <-. injection H2 as <- <-.
  unfold Kettle.temperature. cbn [Kettle.set_temp Kettle._temp].
  assert (Hle : p1 * e * d / Kettle.thermal_mass k
                <= p2 * e * d / Kettle.thermal_mass k).
  { apply Qle_shift_div_l; [assumption|].
    assert (Heq : p1 * e * d / Kettle.thermal_mass k * Kettle.thermal_mass k
                  == p1 * e * d) by (field; assumption).
    rewrite Heq.
    assert (0 <= e * d) by (apply Qmult_le_0_compat; assumption).
    nra. }
  split; lra.
Qed.

Lemma heat_monotone_in_power_witness :
  exists k1 v1 k2 v2,
    Kettle.heat (Kettle.mk (6979 # 100) 40 (95 # 100) 5) 3 5 (98 # 100)
    = Ret (k1, v1) /\
    Kettle.heat (Kettle.mk (6979 # 100) 40 (95 # 100) 5) 6 5 (98 # 100)
    = Ret (k2, v2) /\
    v1 <= v2.
Proof.
  eexists _, _, _, _. split; [reflexivity|]. split; [reflexivity|].
  refine (proj1 (heat_monotone_in_power
                   (Kettle.mk (6979 # 100) 40 (95 # 100) 5) 3 6 5 (98 # 100)
                   _ _ _ _ _ _ _ _ eq_refl eq_refl));
    [unfold Kettle.valid; cbn; lra | lra..].
Defined.

(** * Further properties of the driver *)

(** ** The capacity against the requested delay *)

Lemma py_round_within_half (x : Q) :
  inject_Z (py_round x) - (1 # 2) <= x /\ x <= inject_Z (py_round x) + (1 # 2).
Proof.
  pose proof (Qfloor_le x) as Hlo. pose proof (Qlt_floor x) as Hhi.
  rewrite inject_Z_plus in Hhi. change (inject_Z 1) with 1 in Hhi.
  unfold py_round.
  destruct (Qcompare_spec (x - inject_Z (Qfloor x)) (1 # 2)) as [E | E | E].
  - destruct (Z.even (Qfloor x)).
    + lra.
    + rewrite inject_Z_plus. change (inject_Z 1) with 1. lra.
  - lra.
  - rewrite inject_Z_plus. change (inject_Z 1) with 1. lra.
Qed.

(** X6. The capacity of the delay buffer against the quotient
    [delay / sampletime] the division returned: when the quotient is at
    least one half the capacity differs from it by at most one half, and
    when the quotient is at most one half the capacity is 1. *)
Theorem capacity_approximates_delay (args : Args) (N : nat) (q : Q) :
  fdiv (delay args) (sampletime args) = Ret q ->
  delayed_temps_len args = Ret N ->
  (1 # 2 <= q ->
   inject_Z (Z.of_nat N) - q <= 1 # 2 /\ q - inject_Z (Z.of_nat N) <= 1 # 2) /\
  (q <= 1 # 2 -> N = 1%nat).
Proof.
  intros Hq HN. unfold delayed_temps_len in HN. rewrite Hq in HN.
  cbn [bind] in HN. injection HN as <-.
  destruct (py_round_within_half q) as (Hlo & Hhi).
  assert (Hint : forall z : Z, inject_Z z < 1 -> (z <= 0)%Z).
  { intros z Hz. change 1 with (inject_Z 1) in Hz.
    rewrite <- Zlt_Qlt in Hz. lia. }
  assert (Hint' : forall z : Z, -1 < inject_Z z -> (0 <= z)%Z).
  { intros z Hz. change (-1) with (inject_Z (-1)) in Hz.
    rewrite <- Zlt_Qlt in Hz. lia. }
  split.
  - intros Hhalf.
    assert (Hr : (0 <= py_round q)%Z) by (apply Hint'; lra).
    destruct (Z.eq_dec (py_round q) 0) as [Hz | Hnz].
    + rewrite Hz in *.
      change (inject_Z (Z.of_nat (Z.to_nat (Z.max 1 0)))) with 1.
      change (inject_Z 0) with 0 in *. split; lra.
    + replace (Z.of_nat (Z.to_nat (Z.max 1 (py_round q)))) with (py_round q)
        by lia.
      split; lra.
  - intros Hhalf.
    assert (Hr : (py_round q <= 0)%Z).
    { apply Hint.
      destruct (Qlt_le_dec (inject_Z (py_round q)) 1) as [Hlt | Hge];
        [exact Hlt|].
      exfalso.
      assert (Hq1 : q == 1 # 2) by lra.
      assert (Hr1 : inject_Z (py_round q) == 1) by lra.
      assert (Hf : Qfloor q = 0%Z).
      { rewrite Hq1. reflexivity. }
      unfold py_round in Hr1. rewrite Hf in Hr1.
      destruct (Qcompare_spec (q - inject_Z 0) (1 # 2)) as [E | E | E];
        cbn in Hr1; try discriminate Hr1;
        change (inject_Z 0) with 0 in E; lra. }
    lia.
Qed.

Lemma capacity_approximates_delay_witness :
  inject_Z (Z.of_nat 3) - 15 / 5 <= 1 # 2 /\
  15 / 5 - inject_Z (Z.of_nat 3) <= 1 # 2.
Proof.
  apply (proj1 (capacity_approximates_delay scenario_args 3 (15 / 5)
                  eq_refl eq_refl)).
  vm_compute. discriminate.
Defined.

(** ** The state of a run *)

Lemma heat_Ret_inv (k k' : Kettle.t) (p d e v : Q) :
  Kettle.heat k p d e = Ret (k', v) ->
  ~ Kettle.thermal_mass k == 0 /\ exists T, k' = Kettle.set_temp k T.
Proof.
  unfold Kettle.heat, Kettle._get_deltaT. intros Hrun.
  apply bind_Ret_inv in Hrun as (dT & HdT & Hrun).
  apply fdiv_Ret_inv in HdT as (HM & _). injection Hrun as <- _.
  split; [exact HM | eexists; reflexivity].
Qed.

Lemma cool_Ret_inv (k k' : Kettle.t) (d a f v : Q) :
  Kettle.cool k d a f = Ret (k', v) ->
  ~ d == 0 /\ ~ Kettle.thermal_mass k == 0 /\
  exists T, k' = Kettle.set_temp k T.
Proof.
  unfold Kettle.cool, Kettle._get_deltaT. intros Hrun.
  apply bind_Ret_inv in Hrun as (pw & Hpw & Hrun).
  apply fdiv_Ret_inv in Hpw as (Hd & _).
  apply bind_Ret_inv in Hrun as (dT & HdT & Hrun).
  apply fdiv_Ret_inv in HdT as (HM & _). injection Hrun as <- _.
  split; [exact Hd|]. split; [exact HM | eexists; reflexivity].
Qed.

Lemma sim_update_run_state {St : Type} (args : Args) (N : nat) (k0 : Kettle.t)
    (k : nat) (ts out : Q) (sim sim' : Simulation St) :
  (1 <= N)%nat -> run_state args N k0 k ts sim ->
  sim_update sim (ts + sampletime args) out args = Ret sim' ->
  run_state args N k0 (S k) (ts + sampletime args) sim'.
Proof.
  intros HN (Hinv & Hts & Htl & Hlast & (T & Hk)) Hrun.
  pose proof (sim_update_run_inv _ _ _ _ _ _ _ _ HN Hinv Hrun) as Hinv'.
  apply sim_update_Ret_inv in Hrun
    as (level & k1 & v1 & k2 & v2 & front & _ & Hh & Hc & _ & Hsim).
  apply heat_Ret_inv in Hh as (_ & (T1 & ->)).
  apply cool_Ret_inv in Hc as (_ & _ & (T2 & Hk2)).
  unfold run_state. split; [exact Hinv'|]. subst sim'.
  cbn [timestamps heater_temps kettle].
  split; [rewrite Hts; reflexivity|]. split; [|split].
  - rewrite seq_S, map_app, Htl, Hts. reflexivity.
  - apply last_last.
  - exists T2. rewrite Hk2, Hk. reflexivity.
Qed.

Lemma run_state_set_sut {St : Type} (args : Args) (N : nat) (k0 : Kettle.t)
    (k : nat) (ts : Q) (sim : Simulation St) (c : St) :
  run_state args N k0 k ts sim -> run_state args N k0 k ts (set_sut sim c).
Proof. intros Hst. exact Hst. Qed.

Lemma run_state_start {St : Type} (args : Args) (N : nat) (k0 : Kettle.t)
    (nm : string) (c : St) :
  Kettle._temp k0 = kettle_temp args ->
  run_state args N k0 0 0
    (mkSim nm c k0 (mkDeque N (repeat (kettle_temp args) N)) [] [] [] []).
Proof.
  intros Htemp. unfold run_state, run_inv.
  cbn [delayed_temps heater_temps sensor_temps timestamps outputs kettle
       maxlen items firstn skipn length seq map clock last].
  rewrite app_nil_r. repeat split; try reflexivity.
  - unfold Kettle.temperature. now rewrite Htemp.
  - exists (Kettle._temp k0). now destruct k0.
Qed.

Lemma mapM_length {A B : Type} (f : A -> result B) (xs : list A) (ys : list B) :
  mapM f xs = Ret ys -> length ys = length xs.
Proof.
  revert ys. induction xs as [|x xs IH]; intros ys Hrun; cbn [mapM] in Hrun.
  - injection Hrun as <-. reflexivity.
  - apply bind_Ret_inv in Hrun as (y & _ & Hrun).
    apply bind_Ret_inv in Hrun as (ys' & Hys & Hrun).
    injection Hrun as <-. cbn [length]. f_equal. now apply IH.
Qed.

Lemma mapM_returns {A B : Type} (f : A -> result B) (P : A -> Prop)
    (xs : list A) :
  (forall x, P x -> exists y, f x = Ret y) ->
  Forall P xs -> exists ys, mapM f xs = Ret ys.
Proof.
  intros Hf HP. induction HP as [|x xs Hx _ (ys & IH)]; cbn [mapM].
  - now exists [].
  - destruct (Hf x Hx) as (y & ->). rewrite IH. cbn [bind]. now exists (y :: ys).
Qed.

Section FeedbackState.
Context {C : Type} `{FeedbackController C}.

Lemma simulate_pid_init_run_state (args : Args) (sims : list (Simulation C)) :
  simulate_pid_init args = Ret sims ->
  exists N k0,
    delayed_temps_len args = Ret N /\
    length sims = length (pid args) /\
    Forall (fun sim => run_state args N k0 0 0 sim /\ outputs sim = []) sims /\
    (sims = [] \/
     Kettle.__init__ (diameter args) (volume args) (kettle_temp args)
                     (kettle_mass args) = Ret k0).
Proof.
  unfold simulate_pid_init. intros Hrun.
  apply bind_Ret_inv in Hrun as (N & HN & Hrun).
  apply bind_Ret_inv in Hrun as (sims0 & Hsims0 & Hrun).
  injection Hrun as <-.
  pose proof (mapM_length _ _ _ Hsims0) as Hlen.
  destruct (Kettle.__init__ (diameter args) (volume args) (kettle_temp args)
              (kettle_mass args)) as [k0|e] eqn:Hinit.
  - exists N, k0. split; [assumption|]. rewrite length_map.
    split; [assumption|]. split; [|right; reflexivity].
    apply Forall_map.
    eapply (mapM_Ret_Forall _ (fun _ => True)
              (fun sim : Simulation C =>
                 exists nm c, sim = mkSim nm c k0 (deque_new N) [] [] [] []))
      in Hsims0.
    + eapply Forall_impl; [|exact Hsims0].
      intros sim (nm & c & ->). unfold set_delayed_temps.
      cbn [delayed_temps timestamps heater_temps sensor_temps outputs
           name sut kettle deque_new maxlen].
      rewrite deque_initial_fill. split; [|reflexivity].
      apply run_state_start.
      now apply init_Ret_inv in Hinit as (_ & _ & Ht & _).
    + intros [[[nm kp] ki] kd] sim _ Hsim. cbn [bind] in Hsim.
      injection Hsim as <-. eexists _, _. reflexivity.
    + apply Forall_forall. intros; exact I.
  - exists N, (Kettle.mk 0 0 0 0). split; [assumption|]. rewrite length_map.
    split; [assumption|].
    destruct (pid args) as [|[[[nm kp] ki] kd] rest].
    + cbn [mapM] in Hsims0. injection Hsims0 as <-.
      split; [constructor | left; reflexivity].
    + cbn [mapM bind] in Hsims0. discriminate.
Qed.

Lemma pid_body_run_state (args : Args) (N : nat) (k0 : Kettle.t) (k : nat)
    (ts : Q) (sim sim' : Simulation C) :
  (1 <= N)%nat -> run_state args N k0 k ts sim ->
  pid_body args (ts + sampletime args) sim = Ret sim' ->
  run_state args N k0 (S k) (ts + sampletime args) sim'.
Proof.
  intros HN Hst Hrun.
  apply pid_body_Ret_inv in Hrun as (observed & _ & Hrun).
  eapply sim_update_run_state; [exact HN | | exact Hrun].
  apply run_state_set_sut. exact Hst.
Qed.

(** The rule for a property kept by every step of the feedback loop. *)
Lemma simulate_pid_loop_invariant (args : Args)
    (I : nat -> Q -> Simulation C -> Prop) :
  (forall k ts sim sim',
     I k ts sim -> pid_body args (ts + sampletime args) sim = Ret sim' ->
     I (S k) (ts + sampletime args) sim') ->
  forall fuel k ts sims sims',
    Forall (I k ts) sims ->
    simulate_pid_loop fuel args ts sims = Some (Ret sims') ->
    exists n ts', Forall (I (k + n)%nat ts') sims'.
Proof.
  intros Hstep. induction fuel as [|fuel IH]; intros k ts sims sims' Hinv Hrun;
    cbn [simulate_pid_loop] in Hrun;
    destruct (Qlt_le_dec ts (inject_Z (interval args * 60))) as [Hlt | Hge];
    try discriminate.
  - injection Hrun as <-. exists 0%nat, ts. now rewrite Nat.add_0_r.
  - destruct (mapM (pid_body args (ts + sampletime args)) sims)
      as [sims1|e] eqn:Hmap; [|discriminate].
    apply (mapM_Ret_Forall _ (I k ts) (I (S k) (ts + sampletime args)))
      in Hmap; [| intros x y Hx Hy; eapply Hstep; eassumption | assumption].
    destruct (IH (S k) _ _ _ Hmap Hrun) as (n & ts' & Hfin).
    exists (S n), ts'. now replace (k + S n)%nat with (S k + n)%nat by lia.
  - injection Hrun as <-. exists 0%nat, ts. now rewrite Nat.add_0_r.
Qed.

Lemma simulate_pid_run_state (args : Args) (fuel : nat)
    (sims : list (Simulation C)) :
  simulate_pid fuel args = Some (Ret sims) ->
  exists N k0 n ts,
    delayed_temps_len args = Ret N /\
    length sims = length (pid args) /\
    Forall (run_state args N k0 n ts) sims /\
    (sims = [] \/
     Kettle.__init__ (diameter args) (volume args) (kettle_temp args)
                     (kettle_mass args) = Ret k0).
Proof.
  unfold simulate_pid. intros Hrun.
  destruct (simulate_pid_init args) as [sims0|e] eqn:Hinit; [|discriminate].
  apply simulate_pid_init_run_state in Hinit
    as (N & k0 & HN & Hlen & Hall & Hk0).
  pose proof (delayed_temps_len_Ret_inv _ _ HN) as (_ & _ & Hpos).
  assert (Hall0 : Forall (run_state args N k0 0 0) sims0).
  { eapply Forall_impl; [|exact Hall]. now intros sim (Hsim & _). }
  destruct (simulate_pid_loop_invariant args
              (fun k ts sim => run_state args N k0 k ts sim /\
                               length sims0 = length (pid args))
              ltac:(intros k ts sim sim' (Hst & Hl) Hb; split;
                    [eapply pid_body_run_state; eassumption | exact Hl])
              fuel 0%nat 0 sims0 sims) as (n & ts & Hfin).
  - eapply Forall_impl; [|exact Hall0]. intros sim Hsim. now split.
  - exact Hrun.
  - exists N, k0, n, ts. split; [assumption|].
    assert (Hlen' : length sims = length sims0).
    { clear -Hrun. revert Hrun. generalize 0 at 1. revert sims0.
      induction fuel as [|fuel IH]; intros sims0 ts Hrun;
        cbn [simulate_pid_loop] in Hrun;
        destruct (Qlt_le_dec ts (inject_Z (interval args * 60)));
        try discriminate; try (injection Hrun as <-; reflexivity).
      destruct (mapM (pid_body args (ts + sampletime args)) sims0)
        as [sims1|e] eqn:Hmap; [|discriminate].
      apply mapM_length in Hmap. rewrite <- Hmap. eapply IH. exact Hrun. }
    split; [congruence|]. split.
    + eapply Forall_impl; [|exact Hfin]. now intros sim (Hsim & _).
    + destruct Hk0 as [-> | Hk0]; [|right; exact Hk0].
      left. destruct sims; [reflexivity | discriminate].
Qed.

End FeedbackState.

Section AutotuneState.
Context {A : Type} `{AutotuneController A}.

(** The rule for a property kept by every step of the auto-tune loop. *)
Lemma simulate_autotune_loop_invariant (args : Args)
    (I : nat -> Q -> Simulation A -> Prop) :
  (forall k ts sim c, I k ts sim -> I k ts (set_sut sim c)) ->
  (forall k ts sim ts' sim',
     I k ts sim -> autotune_body args ts sim = Ret (ts', sim') ->
     I (S k) ts' sim') ->
  forall fuel k ts sim ts' sim',
    I k ts sim ->
    simulate_autotune_loop fuel args ts sim = Some (Ret (ts', sim')) ->
    exists n, (n < fuel)%nat /\ I (k + n)%nat ts' sim'.
Proof.
  intros Hsut Hstep.
  induction fuel as [|fuel IH]; intros k ts sim ts' sim' Hinv Hrun;
    cbn [simulate_autotune_loop] in Hrun; [discriminate|].
  destruct (autotune_test ts sim) as [[sim1 [|]]|e] eqn:Htest;
    [| |discriminate].
  - injection Hrun as <- <-. exists 0%nat. rewrite Nat.add_0_r.
    apply autotune_test_Ret_inv in Htest as (observed & _ & -> & _).
    split; [lia | now apply Hsut].
  - destruct (autotune_body args ts sim1) as [[ts2 sim2]|e] eqn:Hbody;
      [|discriminate].
    apply autotune_test_Ret_inv in Htest as (observed & _ & -> & _).
    apply (Hstep k) in Hbody; [|now apply Hsut].
    destruct (IH (S k) _ _ _ _ Hbody Hrun) as (n & Hn & Hfin).
    exists (S n). replace (k + S n)%nat with (S k + n)%nat by lia.
    split; [lia | exact Hfin].
Qed.

Lemma autotune_body_run_state (args : Args) (N : nat) (k0 : Kettle.t)
    (k : nat) (ts ts' : Q) (sim sim' : Simulation A) :
  (1 <= N)%nat -> run_state args N k0 k ts sim ->
  autotune_body args ts sim = Ret (ts', sim') ->
  run_state args N k0 (S k) ts' sim'.
Proof.
  intros HN Hst Hrun. apply autotune_body_Ret_inv in Hrun as (-> & Hrun).
  eapply sim_update_run_state; eassumption.
Qed.

Lemma simulate_autotune_run_state (args : Args) (fuel : nat) (ts : Q)
    (sim : Simulation A) :
  simulate_autotune fuel args = Some (Ret (ts, sim)) ->
  exists N k0 n,
    delayed_temps_len args = Ret N /\
    Kettle.__init__ (diameter args) (volume args) (kettle_temp args)
                    (kettle_mass args) = Ret k0 /\
    (n < fuel)%nat /\
    run_state args N k0 n ts sim.
Proof.
  unfold simulate_autotune. intros Hrun.
  destruct (simulate_autotune_init args) as [sim0|e] eqn:Hinit; [|discriminate].
  apply simulate_autotune_init_run_inv in Hinit as (N & k0 & HN & Hk0 & -> & _).
  pose proof (delayed_temps_len_Ret_inv _ _ HN) as (_ & _ & Hpos).
  assert (Hstart : run_state args N k0 0 0
            (mkSim "autotune"%string
               (PIDAutotune (setpoint args) 100 (sampletime args)
                            (out_min args) (out_max args))
               k0 (mkDeque N (repeat (kettle_temp args) N)) [] [] [] [])).
  { apply run_state_start.
    now apply init_Ret_inv in Hk0 as (_ & _ & Ht & _). }
  destruct (simulate_autotune_loop_invariant args (run_state args N k0)
              ltac:(intros; now apply run_state_set_sut)
              ltac:(intros; eapply autotune_body_run_state; eassumption)
              fuel 0%nat 0 _ ts sim Hstart Hrun) as (n & Hn & Hfin).
  exists N, k0, n. split; [exact HN|]. split; [exact Hk0|].
  split; [exact Hn | exact Hfin].
Qed.

End AutotuneState.

(** ** What a run state says about the records *)

Lemma run_state_length {St : Type} (args : Args) (N : nat) (k0 : Kettle.t)
    (k : nat) (ts : Q) (sim : Simulation St) :
  run_state args N k0 k ts sim -> record_lengths k sim.
Proof. intros (Hinv & _). exact (run_inv_record_lengths _ _ _ _ Hinv). Qed.

Lemma run_state_timestamps {St : Type} (args : Args) (N : nat) (k0 : Kettle.t)
    (k : nat) (ts : Q) (sim : Simulation St) (i : nat) :
  run_state args N k0 k ts sim -> (i < k)%nat ->
  nth i (timestamps sim) 0 = clock (sampletime args) (i + 1).
Proof.
  intros (_ & _ & Htl & _) Hi. rewrite Htl.
  rewrite (nth_indep _ 0 (clock (sampletime args) 0))
    by (rewrite length_map, length_seq; exact Hi).
  rewrite map_nth, seq_nth by exact Hi.
  now replace (1 + i)%nat with (i + 1)%nat by lia.
Qed.

Lemma run_state_front {St : Type} (args : Args) (N : nat) (k0 : Kettle.t)
    (k : nat) (ts : Q) (sim : Simulation St) :
  (1 <= N)%nat -> run_state args N k0 k ts sim ->
  deque_getitem (delayed_temps sim) 0
  = Ret (if (k <? N)%nat then kettle_temp args
         else nth (k - N) (heater_temps sim) 0).
Proof.
  intros HN ((_ & Hitems & _ & Hlen & _) & _).
  unfold deque_getitem. rewrite Hitems, nth_error_skipn_0.
  rewrite (nth_error_nth' _ 0)
    by (rewrite length_app, repeat_length; lia).
  f_equal. destruct (Nat.ltb_spec k N) as [Hlt | Hge].
  - rewrite app_nth1 by (rewrite repeat_length; exact Hlt).
    now apply nth_repeat_lt.
  - rewrite app_nth2 by (rewrite repeat_length; exact Hge).
    now rewrite repeat_length.
Qed.

Lemma run_state_back {St : Type} (args : Args) (N : nat) (k0 : Kettle.t)
    (k : nat) (ts : Q) (sim : Simulation St) :
  (1 <= N)%nat -> run_state args N k0 k ts sim ->
  last (items (delayed_temps sim)) (kettle_temp args)
  = Kettle.temperature (kettle sim).
Proof.
  intros HN ((_ & Hitems & _ & Hlen & _) & _ & _ & Hlast & _).
  rewrite Hitems, <- Hlast. clear Hitems Hlast. subst k.
  destruct N as [|N']; [lia|]. clear HN.
  induction (heater_temps sim) as [|h l IH] using rev_ind.
  - rewrite app_nil_r. cbn [length skipn last].
    induction N' as [|n IHn]; [reflexivity|]. exact IHn.
  - rewrite length_app. cbn [length]. rewrite last_last.
    rewrite app_assoc.
    rewrite (skipn_app (length l + 1) (repeat (kettle_temp args) (S N') ++ l) [h]).
    replace (length l + 1
             - length (repeat (kettle_temp args) (S N') ++ l))%nat
      with 0%nat by (rewrite length_app, repeat_length; lia).
    cbn [skipn]. apply last_last.
Qed.

(** ** Time base *)

(** X7. In feedback mode all runs of one call record the same timestamps, and
    the timestamp of step [i] (from 0) is the sample time added [i + 1] times
    to 0: the first sample is taken one sample time after the start, not at
    time zero. *)
Theorem feedback_timestamps_aligned {C : Type} `{FeedbackController C}
    (args : Args) (fuel : nat) (sims : list (Simulation C)) :
  simulate_pid fuel args = Some (Ret sims) ->
  (forall sim1 sim2,
     In sim1 sims -> In sim2 sims -> timestamps sim1 = timestamps sim2) /\
  Forall (fun sim =>
            forall i, (i < length (timestamps sim))%nat ->
              nth i (timestamps sim) 0 = clock (sampletime args) (i + 1))
         sims.
Proof.
  intros Hrun.
  apply simulate_pid_run_state in Hrun as (N & k0 & n & ts & _ & _ & Hall & _).
  split.
  - intros sim1 sim2 H1 H2. rewrite Forall_forall in Hall.
    destruct (Hall sim1 H1) as (_ & _ & -> & _).
    destruct (Hall sim2 H2) as (_ & _ & -> & _). reflexivity.
  - eapply Forall_impl; [|exact Hall]. intros sim Hsim i Hi.
    pose proof (run_state_length _ _ _ _ _ _ Hsim) as (Hlen & _).
    rewrite Hlen in Hi. exact (run_state_timestamps _ _ _ _ _ _ i Hsim Hi).
Qed.

Lemma feedback_timestamps_aligned_witness :
  exists sims,
    @simulate_pid _ (ConstPID_feedback 50) 12 scenario_args = Some (Ret sims) /\
    Forall (fun sim =>
              forall i, (i < length (timestamps sim))%nat ->
                nth i (timestamps sim) 0 = clock 5 (i + 1))
           sims.
Proof.
  assert (Hr : returned (@simulate_pid _ (ConstPID_feedback 50) 12
                           scenario_args) = true) by (lazy; reflexivity).
  destruct (@simulate_pid _ (ConstPID_feedback 50) 12 scenario_args)
    as [[sims|e]|] eqn:Hrun; try discriminate Hr.
  exists sims. split; [reflexivity|].
  exact (proj2 (@feedback_timestamps_aligned _ (ConstPID_feedback 50)
                  scenario_args 12 sims Hrun)).
Defined.

(** X8. In auto-tune mode the time returned at completion is the sample time
    added to 0 once per recorded step, and the timestamp of step [i] is the
    sample time added [i + 1] times. *)
Theorem autotune_time_is_steps_times_sampletime {A : Type}
    `{AutotuneController A} (args : Args) (fuel : nat) (ts : Q)
    (sim : Simulation A) :
  simulate_autotune fuel args = Some (Ret (ts, sim)) ->
  exists n,
    record_lengths n sim /\
    ts = clock (sampletime args) n /\
    forall i, (i < n)%nat ->
      nth i (timestamps sim) 0 = clock (sampletime args) (i + 1).
Proof.
  intros Hrun.
  apply simulate_autotune_run_state in Hrun as (N & k0 & n & _ & _ & Hn & Hst).
  exists n. split; [exact (run_state_length _ _ _ _ _ _ Hst)|]. split.
  - destruct Hst as (_ & -> & _). reflexivity.
  - intros i Hi. exact (run_state_timestamps _ _ _ _ _ _ i Hst Hi).
Qed.

Lemma autotune_time_is_steps_times_sampletime_witness :
  exists ts sim n,
    @simulate_autotune _ (CountdownTuner_autotune 4 50) 5 scenario_args
    = Some (Ret (ts, sim)) /\
    record_lengths n sim /\ ts = clock 5 n.
Proof.
  assert (Hr : returned (@simulate_autotune _ (CountdownTuner_autotune 4 50) 5
                           scenario_args) = true) by (lazy; reflexivity).
  destruct (@simulate_autotune _ (CountdownTuner_autotune 4 50) 5 scenario_args)
    as [[[ts sim]|e]|] eqn:Hrun; try discriminate Hr.
  destruct (@autotune_time_is_steps_times_sampletime
              _ (CountdownTuner_autotune 4 50) scenario_args 5 ts sim Hrun)
    as (n & Hlen & Hts & _).
  exists ts, sim, n. split; [reflexivity|]. split; [exact Hlen | exact Hts].
Defined.

(** ** The delay line *)

(** X9. In both modes, with a buffer of capacity [N], a returned run has its
    first [N - 1] sensor readings equal to the initial temperature and every
    later reading equal to the heater temperature recorded [N - 1] steps
    earlier. *)
Theorem sensor_lag_is_capacity_minus_one {C : Type} `{FeedbackController C}
    {A : Type} `{AutotuneController A} (args : Args) (N : nat) :
  delayed_temps_len args = Ret N ->
  let lagged (sensor heater : list Q) :=
    length sensor = length heater /\
    forall i, (i < length sensor)%nat ->
      ((i < N - 1)%nat -> nth i sensor 0 = kettle_temp args) /\
      ((N - 1 <= i)%nat -> nth i sensor 0 = nth (i - (N - 1)) heater 0) in
  (forall fuel (sims : list (Simulation C)),
     simulate_pid fuel args = Some (Ret sims) ->
     Forall (fun sim => lagged (sensor_temps sim) (heater_temps sim)) sims) /\
  (forall fuel ts (sim : Simulation A),
     simulate_autotune fuel args = Some (Ret (ts, sim)) ->
     lagged (sensor_temps sim) (heater_temps sim)).
Proof.
  intros HN lagged.
  assert (Hlag : forall (St : Type) k0 n ts (sim : Simulation St),
             run_state args N k0 n ts sim ->
             lagged (sensor_temps sim) (heater_temps sim)).
  { intros St k0 n ts sim (Hinv & _).
    pose proof (run_inv_record_lengths _ _ _ _ Hinv) as (_ & _ & Hs & Hh).
    split; [congruence|]. intros i Hi. rewrite Hs in Hi.
    exact (run_inv_sensor_lag N (kettle_temp args) n sim i Hinv Hi). }
  split.
  - intros fuel sims Hrun.
    apply simulate_pid_run_state in Hrun
      as (N' & k0 & n & ts & HN' & _ & Hall & _).
    rewrite HN in HN'. injection HN' as <-.
    eapply Forall_impl; [|exact Hall]. intros sim. apply Hlag.
  - intros fuel ts sim Hrun.
    apply simulate_autotune_run_state in Hrun as (N' & k0 & n & HN' & _ & _ & Hst).
    rewrite HN in HN'. injection HN' as <-. exact (Hlag _ _ _ _ _ Hst).
Qed.

Lemma sensor_lag_is_capacity_minus_one_witness :
  exists ts sim,
    @simulate_autotune _ (CountdownTuner_autotune 4 50) 5 scenario_args
    = Some (Ret (ts, sim)) /\
    length (sensor_temps sim) = length (heater_temps sim) /\
    forall i, (i < length (sensor_temps sim))%nat ->
      ((i < 3 - 1)%nat -> nth i (sensor_temps sim) 0 = 40) /\
      ((3 - 1 <= i)%nat ->
       nth i (sensor_temps sim) 0 = nth (i - (3 - 1)) (heater_temps sim) 0).
Proof.
  assert (Hr : returned (@simulate_autotune _ (CountdownTuner_autotune 4 50) 5
                           scenario_args) = true) by (lazy; reflexivity).
  destruct (@simulate_autotune _ (CountdownTuner_autotune 4 50) 5 scenario_args)
    as [[[ts sim]|e]|] eqn:Hrun; try discriminate Hr.
  exists ts, sim. split; [reflexivity|].
  exact (proj2 (@sensor_lag_is_capacity_minus_one
                  _ (ConstPID_feedback 50) _ (CountdownTuner_autotune 4 50)
                  scenario_args 3 eq_refl) 5%nat ts sim Hrun).
Defined.

(** X10. With a buffer of capacity 1 there is no lag: in both modes the recorded
    sensor temperatures are the recorded heater temperatures. *)
Theorem unit_capacity_records_no_lag {C : Type} `{FeedbackController C}
    {A : Type} `{AutotuneController A} (args : Args) :
  delayed_temps_len args = Ret 1%nat ->
  (forall fuel (sims : list (Simulation C)),
     simulate_pid fuel args = Some (Ret sims) ->
     Forall (fun sim => sensor_temps sim = heater_temps sim) sims) /\
  (forall fuel ts (sim : Simulation A),
     simulate_autotune fuel args = Some (Ret (ts, sim)) ->
     sensor_temps sim = heater_temps sim).
Proof.
  intros HN.
  assert (Hsame : forall (St : Type) k0 n ts (sim : Simulation St),
             run_state args 1 k0 n ts sim ->
             sensor_temps sim = heater_temps sim).
  { intros St k0 n ts sim ((_ & _ & Hs & Hh & _) & _).
    rewrite Hs. cbn [Nat.sub repeat app]. rewrite <- Hh. apply firstn_all. }
  split.
  - intros fuel sims Hrun.
    apply simulate_pid_run_state in Hrun
      as (N' & k0 & n & ts & HN' & _ & Hall & _).
    rewrite HN in HN'. injection HN' as <-.
    eapply Forall_impl; [|exact Hall]. intros sim. apply Hsame.
  - intros fuel ts sim Hrun.
    apply simulate_autotune_run_state in Hrun as (N' & k0 & n & HN' & _ & _ & Hst).
    rewrite HN in HN'. injection HN' as <-. exact (Hsame _ _ _ _ _ Hst).
Qed.

Lemma unit_capacity_records_no_lag_witness :
  exists ts sim,
    @simulate_autotune _ (CountdownTuner_autotune 4 50) 5
      (mkArgs [] 40 45 20 1 1 5 70 50 5 6 1 0 100)
    = Some (Ret (ts, sim)) /\
    sensor_temps sim = heater_temps sim.
Proof.
  assert (Hr : returned (@simulate_autotune _ (CountdownTuner_autotune 4 50) 5
                           (mkArgs [] 40 45 20 1 1 5 70 50 5 6 1 0 100))
               = true) by (lazy; reflexivity).
  destruct (@simulate_autotune _ (CountdownTuner_autotune 4 50) 5
              (mkArgs [] 40 45 20 1 1 5 70 50 5 6 1 0 100))
    as [[[ts sim]|e]|] eqn:Hrun; try discriminate Hr.
  exists ts, sim. split; [reflexivity|].
  exact (proj2 (@unit_capacity_records_no_lag
                  _ (ConstPID_feedback 50) _ (CountdownTuner_autotune 4 50)
                  (mkArgs [] 40 45 20 1 1 5 70 50 5 6 1 0 100) eq_refl)
           5%nat ts sim Hrun).
Defined.

(** X11. When a run of either mode has returned, the front of its delay buffer --
    what the next controller call would observe and, in auto-tune mode, what
    the completing [run] call was given -- is the heater temperature recorded
    [N] steps before the end, or the initial temperature when fewer than [N]
    steps were taken: the controller sees a lag of the full capacity. *)
Theorem controller_observes_full_capacity_lag {C : Type}
    `{FeedbackController C} {A : Type} `{AutotuneController A}
    (args : Args) (N : nat) :
  delayed_temps_len args = Ret N ->
  let observed (heater : list Q) :=
    if (length heater <? N)%nat then kettle_temp args
    else nth (length heater - N) heater 0 in
  (forall fuel (sims : list (Simulation C)),
     simulate_pid fuel args = Some (Ret sims) ->
     Forall (fun sim =>
               deque_getitem (delayed_temps sim) 0
               = Ret (observed (heater_temps sim)))
            sims) /\
  (forall fuel ts (sim : Simulation A),
     simulate_autotune fuel args = Some (Ret (ts, sim)) ->
     deque_getitem (delayed_temps sim) 0 = Ret (observed (heater_temps sim))).
Proof.
  intros HN observed.
  pose proof (delayed_temps_len_Ret_inv _ _ HN) as (_ & _ & Hpos).
  assert (Hfront : forall (St : Type) k0 n ts (sim : Simulation St),
             run_state args N k0 n ts sim ->
             deque_getitem (delayed_temps sim) 0
             = Ret (observed (heater_temps sim))).
  { intros St k0 n ts sim Hst.
    rewrite (run_state_front _ _ _ _ _ _ Hpos Hst).
    destruct Hst as ((_ & _ & _ & Hh & _) & _). unfold observed.
    now rewrite Hh. }
  split.
  - intros fuel sims Hrun.
    apply simulate_pid_run_state in Hrun
      as (N' & k0 & n & ts & HN' & _ & Hall & _).
    rewrite HN in HN'. injection HN' as <-.
    eapply Forall_impl; [|exact Hall]. intros sim. apply Hfront.
  - intros fuel ts sim Hrun.
    apply simulate_autotune_run_state in Hrun as (N' & k0 & n & HN' & _ & _ & Hst).
    rewrite HN in HN'. injection HN' as <-. exact (Hfront _ _ _ _ _ Hst).
Qed.

Lemma controller_observes_full_capacity_lag_witness :
  exists sims,
    @simulate_pid _ (ConstPID_feedback 50) 12 scenario_args = Some (Ret sims) /\
    Forall (fun sim =>
              deque_getitem (delayed_temps sim) 0
              = Ret (if (length (heater_temps sim) <? 3)%nat then 40
                     else nth (length (heater_temps sim) - 3)
                              (heater_temps sim) 0))
           sims.
Proof.
  assert (Hr : returned (@simulate_pid _ (ConstPID_feedback 50) 12
                           scenario_args) = true) by (lazy; reflexivity).
  destruct (@simulate_pid _ (ConstPID_feedback 50) 12 scenario_args)
    as [[sims|e]|] eqn:Hrun; try discriminate Hr.
  exists sims. split; [reflexivity|].
  exact (proj1 (@controller_observes_full_capacity_lag
                  _ (ConstPID_feedback 50) _ (CountdownTuner_autotune 4 50)
                  scenario_args 3 eq_refl) 12%nat sims Hrun).
Defined.

(** ** The kettle of a run *)

Lemma run_state_geometry {St : Type} (args : Args) (N : nat) (k0 : Kettle.t)
    (k : nat) (ts : Q) (sim : Simulation St) :
  run_state args N k0 k ts sim ->
  Kettle.__init__ (diameter args) (volume args) (kettle_temp args)
                  (kettle_mass args) = Ret k0 ->
  Kettle._waterMass (kettle sim) = volume args * Kettle.DENSITY_WATER /\
  Kettle._kettleMass (kettle sim) = kettle_mass args /\
  Kettle._surface (kettle sim) = Kettle._surface k0.
Proof.
  intros (_ & _ & _ & _ & (T & ->)) Hinit.
  apply init_Ret_inv in Hinit as (_ & Hw & _ & Hm & _).
  cbn [Kettle.set_temp Kettle._waterMass Kettle._kettleMass Kettle._surface].
  repeat split; assumption.
Qed.

(** X12. In both modes the kettle of a returned run has the contents mass, the
    vessel mass and the surface area of the kettle the set-up constructed: a
    run changes nothing of the kettle but its temperature. *)
Theorem run_keeps_kettle_geometry {C : Type} `{FeedbackController C}
    {A : Type} `{AutotuneController A} (args : Args) :
  let constructed (k0 k : Kettle.t) :=
    Kettle._waterMass k = volume args * Kettle.DENSITY_WATER /\
    Kettle._kettleMass k = kettle_mass args /\
    Kettle._surface k = Kettle._surface k0 in
  (forall fuel (sims : list (Simulation C)),
     simulate_pid fuel args = Some (Ret sims) ->
     forall k0,
       Kettle.__init__ (diameter args) (volume args) (kettle_temp args)
                       (kettle_mass args) = Ret k0 ->
       Forall (fun sim => constructed k0 (kettle sim)) sims) /\
  (forall fuel ts (sim : Simulation A),
     simulate_autotune fuel args = Some (Ret (ts, sim)) ->
     exists k0,
       Kettle.__init__ (diameter args) (volume args) (kettle_temp args)
                       (kettle_mass args) = Ret k0 /\
       constructed k0 (kettle sim)).
Proof.
  intros constructed. split.
  - intros fuel sims Hrun k0 Hk0.
    apply simulate_pid_run_state in Hrun
      as (N & k0' & n & ts & _ & _ & Hall & [-> | Hk0']); [constructor|].
    rewrite Hk0 in Hk0'. injection Hk0' as <-.
    eapply Forall_impl; [|exact Hall]. intros sim Hsim.
    exact (run_state_geometry _ _ _ _ _ _ Hsim Hk0).
  - intros fuel ts sim Hrun.
    apply simulate_autotune_run_state in Hrun as (N & k0 & n & _ & Hk0 & _ & Hst).
    exists k0. split; [exact Hk0|].
    exact (run_state_geometry _ _ _ _ _ _ Hst Hk0).
Qed.

(** X13. In both modes, when a run has returned, the temperature of its kettle is
    the last recorded heater temperature (the initial temperature when no step
    was taken) and is the newest entry of the delay buffer. *)
Theorem kettle_temperature_is_last_record {C : Type} `{FeedbackController C}
    {A : Type} `{AutotuneController A} (args : Args) :
  let current {St : Type} (sim : Simulation St) :=
    Kettle.temperature (kettle sim)
    = last (heater_temps sim) (kettle_temp args) /\
    Kettle.temperature (kettle sim)
    = last (items (delayed_temps sim)) (kettle_temp args) in
  (forall fuel (sims : list (Simulation C)),
     simulate_pid fuel args = Some (Ret sims) ->
     Forall (fun sim => current sim) sims) /\
  (forall fuel ts (sim : Simulation A),
     simulate_autotune fuel args = Some (Ret (ts, sim)) -> current sim).
Proof.
  intros current.
  assert (Hcur : forall (St : Type) N k0 n ts (sim : Simulation St),
             (1 <= N)%nat -> run_state args N k0 n ts sim -> current St sim).
  { intros St N k0 n ts sim HN Hst. split.
    - destruct Hst as (_ & _ & _ & Hlast & _). now rewrite Hlast.
    - now rewrite (run_state_back _ _ _ _ _ _ HN Hst). }
  split.
  - intros fuel sims Hrun.
    apply simulate_pid_run_state in Hrun
      as (N & k0 & n & ts & HN & _ & Hall & _).
    apply delayed_temps_len_Ret_inv in HN as (_ & _ & HN).
    eapply Forall_impl; [|exact Hall]. intros sim. now apply Hcur.
  - intros fuel ts sim Hrun.
    apply simulate_autotune_run_state in Hrun as (N & k0 & n & HN & _ & _ & Hst).
    apply delayed_temps_len_Ret_inv in HN as (_ & _ & HN).
    exact (Hcur _ _ _ _ _ _ HN Hst).
Qed.

(** ** Outputs of a feedback run *)

(** X14. Every output recorded by a feedback run is at most [out_max], and at
    least [out_min] when [out_min <= out_max]. *)
Theorem feedback_outputs_within_bounds {C : Type} `{FeedbackController C}
    (args : Args) (fuel : nat) (sims : list (Simulation C)) :
  simulate_pid fuel args = Some (Ret sims) ->
  Forall (fun sim =>
            Forall (fun o =>
                      o <= out_max args /\
                      (out_min args <= out_max args -> out_min args <= o))
                   (outputs sim))
         sims.
Proof.
  unfold simulate_pid. intros Hrun.
  destruct (simulate_pid_init args) as [sims0|e] eqn:Hinit; [|discriminate].
  apply simulate_pid_init_run_state in Hinit as (N & k0 & _ & _ & Hall & _).
  set (bounded := fun o : Q =>
         o <= out_max args /\
         (out_min args <= out_max args -> out_min args <= o)).
  destruct (simulate_pid_loop_invariant args
              (fun _ _ sim => Forall bounded (outputs sim))) with
    (fuel := fuel) (k := 0%nat) (ts := 0) (sims := sims0) (sims' := sims)
    as (n & ts & Hfin).
  - intros k ts sim sim' Hb Hbody.
    apply pid_body_Ret_inv in Hbody as (observed & _ & Hbody).
    apply sim_update_applies in Hbody as (k1 & v1 & v2 & _ & _ & _ & -> & _).
    cbn [outputs set_sut]. apply Forall_app. split; [exact Hb|].
    constructor; [|constructor]. split; [apply py_min_le_r | apply clamp_lower].
  - eapply Forall_impl; [|exact Hall]. intros sim (_ & ->). constructor.
  - exact Hrun.
  - exact Hfin.
Qed.

Lemma feedback_outputs_within_bounds_witness :
  exists sims,
    @simulate_pid _ (ConstPID_feedback 150) 12 scenario_args = Some (Ret sims) /\
    Forall (fun sim =>
              Forall (fun o => o <= 100 /\ (0 <= 100 -> 0 <= o)) (outputs sim))
           sims.
Proof.
  assert (Hr : returned (@simulate_pid _ (ConstPID_feedback 150) 12
                           scenario_args) = true) by (lazy; reflexivity).
  destruct (@simulate_pid _ (ConstPID_feedback 150) 12 scenario_args)
    as [[sims|e]|] eqn:Hrun; try discriminate Hr.
  exists sims. split; [reflexivity|].
  exact (@feedback_outputs_within_bounds _ (ConstPID_feedback 150)
           scenario_args 12 sims Hrun).
Defined.

(** ** Runs that return, runs that raise, runs that never end *)

Lemma deque_front_exists (d : deque) :
  (1 <= maxlen d)%nat -> deque_full d -> exists x, deque_getitem d 0 = Ret x.
Proof.
  unfold deque_full, deque_getitem. intros Hmax Hfull.
  destruct (items d) as [|x l]; [cbn in Hfull; lia|]. now exists x.
Qed.

Lemma sim_update_returns {St : Type} (args : Args) (sim : Simulation St)
    (ts out : Q) :
  ~ out_max args == 0 -> ~ sampletime args == 0 -> step_ready sim ->
  exists sim', sim_update sim ts out args = Ret sim' /\ step_ready sim'.
Proof.
  intros Hmax Hs (HM & Hcap & Hfull). unfold sim_update.
  rewrite fdiv_nonzero by assumption. cbn [bind].
  rewrite KettleFacts.heat_nonzero by assumption. cbn [bind].
  match goal with
  | |- context [Kettle.cool ?k1 ?d ?a ?f] =>
      destruct (KettleFacts.cool_nonzero k1 d a f Hs) as (T' & -> & _);
        [rewrite KettleFacts.thermal_mass_set_temp; exact HM|]
  end.
  cbn [bind].
  match goal with
  | |- context [deque_getitem ?dq 0] =>
      destruct (deque_front_exists dq) as (front & ->);
        [rewrite deque_append_maxlen; exact Hcap
        | now apply deque_append_full |]
  end.
  cbn [bind]. eexists. split; [reflexivity|].
  unfold step_ready. cbn [kettle delayed_temps].
  rewrite !KettleFacts.thermal_mass_set_temp, deque_append_maxlen.
  split; [exact HM|]. split; [exact Hcap | now apply deque_append_full].
Qed.

Lemma init_Ret_thermal_mass (args : Args) (k0 : Kettle.t) :
  Kettle.__init__ (diameter args) (volume args) (kettle_temp args)
                  (kettle_mass args) = Ret k0 ->
  Kettle.thermal_mass k0 = config_thermal_mass args.
Proof.
  intros Hinit. apply init_Ret_inv in Hinit as (_ & Hw & _ & Hkm & _).
  unfold Kettle.thermal_mass, config_thermal_mass. now rewrite Hw, Hkm.
Qed.

Lemma run_state_step_ready {St : Type} (args : Args) (N : nat) (k0 : Kettle.t)
    (k : nat) (ts : Q) (sim : Simulation St) :
  (1 <= N)%nat -> ~ Kettle.thermal_mass k0 == 0 ->
  run_state args N k0 k ts sim -> step_ready sim.
Proof.
  intros HN HM Hst.
  pose proof (run_inv_deque_full _ _ _ _ (proj1 Hst)) as Hfull.
  destruct Hst as ((Hmax & _) & _ & _ & _ & (T & Hk)).
  unfold step_ready. rewrite Hk, KettleFacts.thermal_mass_set_temp, Hmax.
  repeat split; assumption.
Qed.

Section FeedbackReturns.
Context {C : Type} `{FeedbackController C}.

Lemma pid_body_returns (args : Args) (ts : Q) (sim : Simulation C) :
  ~ out_max args == 0 -> ~ sampletime args == 0 -> step_ready sim ->
  exists sim', pid_body args ts sim = Ret sim' /\ step_ready sim'.
Proof.
  intros Hmax Hs Hready. unfold pid_body.
  destruct Hready as (HM & Hcap & Hfull).
  destruct (deque_front_exists _ Hcap Hfull) as (observed & ->). cbn [bind].
  destruct (calc (sut sim) ts observed (setpoint args)) as [c o].
  apply sim_update_returns; try assumption.
  unfold step_ready. cbn [set_sut kettle delayed_temps].
  repeat split; assumption.
Qed.

Lemma simulate_pid_loop_never_raises (args : Args) :
  ~ out_max args == 0 -> ~ sampletime args == 0 ->
  forall fuel ts (sims : list (Simulation C)) e,
    Forall step_ready sims ->
    simulate_pid_loop fuel args ts sims <> Some (Raise e).
Proof.
  intros Hmax Hs. induction fuel as [|fuel IH]; intros ts sims e Hready;
    cbn [simulate_pid_loop];
    destruct (Qlt_le_dec ts (inject_Z (interval args * 60))) as [Hlt | Hge];
    try discriminate.
  destruct (mapM_returns (pid_body args (ts + sampletime args)) step_ready sims)
    as (sims1 & Hmap); [|assumption|].
  - intros sim Hsim.
    destruct (pid_body_returns args (ts + sampletime args) sim)
      as (sim' & Hb & _); try assumption. now exists sim'.
  - rewrite Hmap. apply IH.
    eapply mapM_Ret_Forall; [|exact Hready|exact Hmap].
    intros sim sim' Hsim Hb.
    destruct (pid_body_returns args (ts + sampletime args) sim)
      as (sim2 & Hb2 & Hready2); try assumption. congruence.
Qed.

End FeedbackReturns.

(** X15. Once the set-up of a feedback simulation has returned, no step raises
    an exception when [out_max] and the thermal mass of the configured kettle
    are not zero, whatever the controllers answer: the simulation returns or
    is still looping when the fuel is used up, and when it returns there is
    one run per entry of [args.pid]. *)
Theorem feedback_steps_raise_nothing {C : Type} `{FeedbackController C}
    (args : Args) (sims0 : list (Simulation C)) :
  simulate_pid_init args = Ret sims0 ->
  ~ out_max args == 0 -> ~ config_thermal_mass args == 0 ->
  (forall fuel e, @simulate_pid C _ fuel args <> Some (Raise e)) /\
  (forall fuel (sims : list (Simulation C)),
     simulate_pid fuel args = Some (Ret sims) ->
     length sims = length (pid args)).
Proof.
  intros Hinit Hmax HM. split.
  - intros fuel e. unfold simulate_pid. rewrite Hinit.
    pose proof (simulate_pid_init_run_state _ _ Hinit)
      as (N & k0 & HN & _ & Hall & Hk0).
    pose proof (delayed_temps_len_Ret_inv _ _ HN) as (Hs & _ & Hpos).
    apply simulate_pid_loop_never_raises; try assumption.
    destruct Hk0 as [-> | Hk0]; [constructor|].
    eapply Forall_impl; [|exact Hall]. intros sim (Hsim & _).
    eapply run_state_step_ready; [exact Hpos | | exact Hsim].
    now rewrite (init_Ret_thermal_mass _ _ Hk0).
  - intros fuel sims Hrun.
    now apply simulate_pid_run_state in Hrun as (_ & _ & _ & _ & _ & Hlen & _).
Qed.

Lemma feedback_steps_raise_nothing_witness :
  match @simulate_pid _ (ConstPID_feedback 50) 3 scenario_args with
  | Some (Raise _) => False
  | _ => True
  end.
Proof.
  destruct (@simulate_pid_init _ (ConstPID_feedback 50) scenario_args)
    as [sims0|e0] eqn:Hinit; [|vm_compute in Hinit; discriminate Hinit].
  destruct (@simulate_pid _ (ConstPID_feedback 50) 3 scenario_args)
    as [[r|e]|] eqn:Hrun; try exact I.
  apply (proj1 (@feedback_steps_raise_nothing _ (ConstPID_feedback 50)
                  scenario_args sims0 Hinit
                  ltac:(vm_compute; discriminate)
                  ltac:(vm_compute; discriminate)) 3%nat e).
  exact Hrun.
Defined.

Section AutotuneReturns.
Context {A : Type} `{AutotuneController A}.

Lemma simulate_autotune_loop_never_raises (args : Args) :
  ~ out_max args == 0 -> ~ sampletime args == 0 ->
  forall fuel ts (sim : Simulation A) e,
    step_ready sim ->
    simulate_autotune_loop fuel args ts sim <> Some (Raise e).
Proof.
  intros Hmax Hs. induction fuel as [|fuel IH]; intros ts sim e Hready;
    cbn [simulate_autotune_loop]; [discriminate|].
  unfold autotune_test.
  pose proof Hready as (HM & Hcap & Hfull).
  destruct (deque_front_exists _ Hcap Hfull) as (observed & ->). cbn [bind].
  destruct (run (sut sim) ts observed) as [c [|]]; [discriminate|].
  unfold autotune_body.
  destruct (sim_update_returns args (set_sut sim c) (ts + sampletime args)
              (output (sut (set_sut sim c))) Hmax Hs)
    as (sim' & -> & Hready'); [exact Hready|].
  cbn [bind]. now apply IH.
Qed.

Lemma simulate_autotune_init_step_ready (args : Args) (sim0 : Simulation A) :
  simulate_autotune_init args = Ret sim0 ->
  ~ config_thermal_mass args == 0 ->
  ~ sampletime args == 0 /\ step_ready sim0.
Proof.
  intros Hinit HM.
  apply simulate_autotune_init_run_inv in Hinit as (N & k0 & HN & Hk0 & -> & _).
  pose proof (delayed_temps_len_Ret_inv _ _ HN) as (Hs & _ & Hpos).
  split; [exact Hs|].
  unfold step_ready, deque_full. cbn [kettle delayed_temps maxlen items].
  rewrite repeat_length, (init_Ret_thermal_mass _ _ Hk0).
  split; [exact HM|]. split; [lia | reflexivity].
Qed.

End AutotuneReturns.

(** X16. Once the set-up of the auto-tune simulation has returned, no step
    raises an exception when [out_max] and the thermal mass of the configured
    kettle are not zero: whatever the controller does, the run either
    returns or is still looping when the fuel is used up. *)
Theorem autotune_steps_raise_nothing {A : Type} `{AutotuneController A}
    (args : Args) (sim0 : Simulation A) (fuel : nat) (e : exn) :
  simulate_autotune_init args = Ret sim0 ->
  ~ out_max args == 0 -> ~ config_thermal_mass args == 0 ->
  @simulate_autotune A _ fuel args <> Some (Raise e).
Proof.
  intros Hinit Hmax HM. unfold simulate_autotune. rewrite Hinit.
  destruct (simulate_autotune_init_step_ready args sim0 Hinit HM)
    as (Hs & Hready).
  now apply simulate_autotune_loop_never_raises.
Qed.

Lemma autotune_steps_raise_nothing_witness :
  match @simulate_autotune _ (CountdownTuner_autotune 4 50) 3 scenario_args with
  | Some (Raise _) => False
  | _ => True
  end.
Proof.
  destruct (@simulate_autotune_init _ (CountdownTuner_autotune 4 50)
              scenario_args) as [sim0|e0] eqn:Hinit;
    [|vm_compute in Hinit; discriminate Hinit].
  destruct (@simulate_autotune _ (CountdownTuner_autotune 4 50) 3 scenario_args)
    as [[r|e]|] eqn:Hrun; try exact I.
  apply (@autotune_steps_raise_nothing _ (CountdownTuner_autotune 4 50)
           scenario_args sim0 3 e Hinit
           ltac:(vm_compute; discriminate)
           ltac:(vm_compute; discriminate)).
  exact Hrun.
Defined.

Lemma countdown_loop_returns (level : Q) (steps : nat) (args : Args) :
  ~ out_max args == 0 -> ~ sampletime args == 0 ->
  forall K fuel ts (sim : Simulation CountdownTuner),
    step_ready sim -> tuner_left (sut sim) = K -> (K < fuel)%nat ->
    exists ts' sim',
      @simulate_autotune_loop _ (CountdownTuner_autotune steps level)
        fuel args ts sim = Some (Ret (ts', sim')) /\
      outputs sim' = outputs sim ++ repeat (tuner_output (sut sim)) K.
Proof.
  intros Hmax Hs. induction K as [|K IH]; intros fuel ts sim Hready Hleft Hfuel;
    (destruct fuel as [|fuel]; [lia|]); cbn [simulate_autotune_loop];
    unfold autotune_test;
    pose proof Hready as (HM & Hcap & Hfull);
    destruct (deque_front_exists _ Hcap Hfull) as (observed & ->);
    cbn [bind run CountdownTuner_autotune]; rewrite Hleft.
  - eexists _, _. split; [reflexivity|].
    cbn [set_sut outputs repeat]. now rewrite app_nil_r.
  - unfold autotune_body.
    match goal with
    | |- context [sim_update ?s ?t ?o args] =>
        destruct (sim_update_returns args s t o Hmax Hs)
          as (sim1 & Hupd & Hready1); [exact Hready|];
          rewrite Hupd;
          apply sim_update_applies in Hupd
            as (k1 & v1 & v2 & _ & _ & _ & Hout & Hsut)
    end.
    cbn [bind].
    destruct (IH fuel (ts + sampletime args) sim1 Hready1) as (ts' & sim' & Hrun & Houts);
      [rewrite Hsut; reflexivity | lia |].
    exists ts', sim'. split; [exact Hrun|].
    rewrite Houts, Hout, Hsut.
    cbn [set_sut sut outputs output CountdownTuner_autotune tuner_output repeat].
    now rewrite <- app_assoc.
Qed.

(** X17. With a tuner whose [run] answers [False] exactly [K] times and then
    [True], once the set-up has returned and with [out_max] and the thermal
    mass of the configured kettle not zero, the auto-tune simulation returns
    after [K] steps: the four recorded sequences have length [K], the outputs
    are the tuner's, and the returned time is the sample time added [K]
    times to 0. *)
Theorem autotune_records_one_step_per_refusal (K : nat) (level : Q)
    (args : Args) (fuel : nat) (sim0 : Simulation CountdownTuner) :
  @simulate_autotune_init _ (CountdownTuner_autotune K level) args = Ret sim0 ->
  ~ out_max args == 0 -> ~ config_thermal_mass args == 0 ->
  (K < fuel)%nat ->
  exists sim,
    @simulate_autotune _ (CountdownTuner_autotune K level) fuel args
    = Some (Ret (clock (sampletime args) K, sim)) /\
    record_lengths K sim /\
    outputs sim = repeat level K.
Proof.
  intros Hinit Hmax HM Hfuel.
  destruct (@simulate_autotune_init_step_ready
              _ (CountdownTuner_autotune K level) args sim0 Hinit HM)
    as (Hs & Hready).
  pose proof (@simulate_autotune_init_run_inv _ (CountdownTuner_autotune K level)
                _ _ Hinit) as (N & k0 & HN & Hk0 & Hsim0 & _).
  destruct (countdown_loop_returns level K args Hmax Hs K fuel 0 sim0
              Hready) as (ts & sim & Hloop & Houts);
    [subst sim0; reflexivity | exact Hfuel |].
  assert (Hrun : @simulate_autotune _ (CountdownTuner_autotune K level) fuel args
                 = Some (Ret (ts, sim))).
  { unfold simulate_autotune. rewrite Hinit. exact Hloop. }
  assert (Hout : outputs sim = repeat level K).
  { rewrite Houts. subst sim0. reflexivity. }
  pose proof (@simulate_autotune_run_state _ (CountdownTuner_autotune K level)
                _ _ _ _ Hrun) as (N' & k0' & n & _ & _ & _ & Hst).
  pose proof (run_state_length _ _ _ _ _ _ Hst) as Hlen.
  assert (Hn : n = K).
  { destruct Hlen as (_ & Ho & _). rewrite Hout, repeat_length in Ho.
    congruence. }
  subst n. exists sim.
  destruct Hst as (_ & Hts & _). rewrite <- Hts.
  split; [exact Hrun|]. split; [exact Hlen | exact Hout].
Qed.

Lemma autotune_records_one_step_per_refusal_witness :
  exists sim,
    @simulate_autotune _ (CountdownTuner_autotune 4 50) 5 scenario_args
    = Some (Ret (clock 5 4, sim)) /\
    record_lengths 4 sim /\
    outputs sim = [50; 50; 50; 50].
Proof.
  destruct (@simulate_autotune_init _ (CountdownTuner_autotune 4 50)
              scenario_args) as [sim0|e0] eqn:Hinit;
    [|vm_compute in Hinit; discriminate Hinit].
  apply (autotune_records_one_step_per_refusal 4 50 scenario_args 5 sim0 Hinit).
  - vm_compute. discriminate.
  - vm_compute. discriminate.
  - lia.
Defined.

(** X18. A zero sample time makes both simulations raise [ZeroDivisionError] in
    their set-up, before any step. *)
Theorem setup_raises_on_zero_sampletime {C : Type}
    `{FeedbackController C} {A : Type} `{AutotuneController A}
    (args : Args) (fuel : nat) :
  sampletime args == 0 ->
  @simulate_pid C _ fuel args = Some (Raise ZeroDivisionError) /\
  @simulate_autotune A _ fuel args = Some (Raise ZeroDivisionError).
Proof.
  intros Hs. unfold simulate_pid, simulate_pid_init, delayed_temps_len,
    simulate_autotune, simulate_autotune_init.
  rewrite fdiv_zero by assumption. split; reflexivity.
Qed.

Lemma setup_raises_on_zero_sampletime_witness :
  @simulate_pid _ (ConstPID_feedback 50) 3
    (mkArgs [("a"%string, 0, 0, 0)] 40 45 20 1 15 0 70 50 5 6 1 0 100)
  = Some (Raise ZeroDivisionError).
Proof.
  apply (proj1 (@setup_raises_on_zero_sampletime
                  _ (ConstPID_feedback 50) _ (CountdownTuner_autotune 1 50)
                  (mkArgs [("a"%string, 0, 0, 0)] 40 45 20 1 15 0 70 50 5 6 1
                          0 100) 3 ltac:(reflexivity))).
Defined.

Lemma sim_update_needs_out_max {St : Type} (args : Args) (sim sim' : Simulation St)
    (ts out : Q) :
  out_max args == 0 -> sim_update sim ts out args <> Ret sim'.
Proof.
  intros Hz Hrun.
  apply sim_update_applies in Hrun as (k1 & v1 & v2 & Hmax & _). contradiction.
Qed.

(** X19. With [out_max] zero no step can be taken: a run that returns, in either
    mode, has recorded nothing, and a feedback simulation whose set-up has
    returned at least one run raises [ZeroDivisionError] in its first step
    when the interval is positive. *)
Theorem zero_out_max_allows_no_step {C : Type} `{FeedbackController C}
    {A : Type} `{AutotuneController A} (args : Args) :
  out_max args == 0 ->
  (forall fuel (sims : list (Simulation C)),
     simulate_pid fuel args = Some (Ret sims) ->
     Forall (record_lengths 0) sims) /\
  (forall fuel ts (sim : Simulation A),
     simulate_autotune fuel args = Some (Ret (ts, sim)) ->
     record_lengths 0 sim) /\
  (forall sims0 : list (Simulation C),
     simulate_pid_init args = Ret sims0 -> sims0 <> [] ->
     (0 < interval args)%Z ->
     forall fuel,
       @simulate_pid C _ (S fuel) args = Some (Raise ZeroDivisionError)).
Proof.
  intros Hz. split; [|split].
  - intros fuel sims Hrun. unfold simulate_pid in Hrun.
    destruct (simulate_pid_init args) as [sims0|e] eqn:Hinit; [|discriminate].
    apply simulate_pid_init_run_state in Hinit as (N & k0 & _ & _ & Hall & _).
    destruct (simulate_pid_loop_invariant args
                (fun _ _ sim => record_lengths 0 sim)) with
      (fuel := fuel) (k := 0%nat) (ts := 0) (sims := sims0) (sims' := sims)
      as (n & ts & Hfin); [| |exact Hrun|exact Hfin].
    + intros k ts sim sim' _ Hbody.
      apply pid_body_Ret_inv in Hbody as (observed & _ & Hbody).
      now apply sim_update_needs_out_max in Hbody.
    + eapply Forall_impl; [|exact Hall]. intros sim (Hsim & _).
      exact (run_state_length _ _ _ _ _ _ Hsim).
  - intros fuel ts sim Hrun. unfold simulate_autotune in Hrun.
    destruct (simulate_autotune_init args) as [sim0|e] eqn:Hinit; [|discriminate].
    apply simulate_autotune_init_run_inv in Hinit as (N & k0 & _ & _ & _ & Hinv).
    destruct (simulate_autotune_loop_invariant args
                (fun _ _ sim => record_lengths 0 sim)) with
      (fuel := fuel) (k := 0%nat) (ts := 0) (sim := sim0) (ts' := ts)
      (sim' := sim) as (n & _ & Hfin); [| | |exact Hrun|exact Hfin].
    + intros k t s c Hs. exact Hs.
    + intros k t s t' s' _ Hbody.
      apply autotune_body_Ret_inv in Hbody as (_ & Hbody).
      now apply sim_update_needs_out_max in Hbody.
    + exact (run_inv_record_lengths _ _ _ _ Hinv).
  - intros sims0 Hinit Hne Hint fuel.
    pose proof (simulate_pid_init_run_state _ _ Hinit)
      as (N & k0 & HN & Hlen & Hall & _).
    pose proof (delayed_temps_len_Ret_inv _ _ HN) as (_ & _ & Hpos).
    unfold simulate_pid. rewrite Hinit. cbn [simulate_pid_loop].
    destruct (Qlt_le_dec 0 (inject_Z (interval args * 60))) as [Hlt | Hge].
    + destruct sims0 as [|sim rest]; [contradiction|].
      inversion Hall as [|? ? (Hsim & _) _]; subst.
      cbn [mapM]. unfold pid_body at 1.
      rewrite (run_state_front _ _ _ _ _ _ Hpos Hsim). cbn [bind].
      destruct (calc (sut sim) (0 + sampletime args) _ (setpoint args))
        as [c o].
      unfold sim_update. rewrite fdiv_zero by assumption. reflexivity.
    + exfalso. change 0 with (inject_Z 0) in Hge. rewrite <- Zle_Qle in Hge.
      lia.
Qed.

Lemma zero_out_max_allows_no_step_witness :
  @simulate_pid _ (ConstPID_feedback 50) 1
    (mkArgs [("a"%string, 0, 0, 0)] 40 45 20 1 15 5 70 50 5 6 1 0 0)
  = Some (Raise ZeroDivisionError).
Proof.
  destruct (@simulate_pid_init _ (ConstPID_feedback 50)
              (mkArgs [("a"%string, 0, 0, 0)] 40 45 20 1 15 5 70 50 5 6 1 0 0))
    as [sims0|e0] eqn:Hinit; [|vm_compute in Hinit; discriminate Hinit].
  apply (proj2 (proj2 (@zero_out_max_allows_no_step
                         _ (ConstPID_feedback 50)
                         _ (CountdownTuner_autotune 1 50)
                         (mkArgs [("a"%string, 0, 0, 0)] 40 45 20 1 15 5 70 50
                                 5 6 1 0 0) eq_refl)) sims0 Hinit).
  - intros Hnil. subst sims0. vm_compute in Hinit. discriminate Hinit.
  - reflexivity.
Defined.

(** X20. With a sample time that is not positive and a positive interval the
    feedback simulation never returns: it raises in the set-up (sample time
    zero) or its loop does not end (negative sample time). *)
Theorem nonpositive_sampletime_never_returns {C : Type} `{FeedbackController C}
    (args : Args) (fuel : nat) (sims : list (Simulation C)) :
  sampletime args <= 0 -> (0 < interval args)%Z ->
  simulate_pid fuel args <> Some (Ret sims).
Proof.
  intros Hs Hint. unfold simulate_pid.
  destruct (simulate_pid_init args) as [sims0|e]; [|discriminate].
  assert (Hlim : 0 < inject_Z (interval args * 60)).
  { change 0 with (inject_Z 0). rewrite <- Zlt_Qlt. lia. }
  assert (Hloop : forall fuel ts (l : list (Simulation C)),
             ts <= 0 -> simulate_pid_loop fuel args ts l <> Some (Ret sims)).
  { clear fuel sims0. induction fuel as [|fuel IH]; intros ts l Hts;
      cbn [simulate_pid_loop];
      destruct (Qlt_le_dec ts (inject_Z (interval args * 60))) as [Hlt | Hge];
      try discriminate; try lra.
    destruct (mapM (pid_body args (ts + sampletime args)) l) as [l'|e];
      [|discriminate].
    apply IH. lra. }
  apply Hloop. lra.
Qed.

Lemma nonpositive_sampletime_never_returns_witness :
  match @simulate_pid _ (ConstPID_feedback 50) 100
          (mkArgs [("a"%string, 0, 0, 0)] 40 45 20 1 15 (-5) 70 50 5 6 1 0 100)
  with
  | Some (Ret _) => False
  | _ => True
  end.
Proof.
  destruct (@simulate_pid _ (ConstPID_feedback 50) 100
              (mkArgs [("a"%string, 0, 0, 0)] 40 45 20 1 15 (-5) 70 50 5 6 1 0
                      100)) as [[sims|e]|] eqn:Hrun; try exact I.
  apply (@nonpositive_sampletime_never_returns _ (ConstPID_feedback 50)
           (mkArgs [("a"%string, 0, 0, 0)] 40 45 20 1 15 (-5) 70 50 5 6 1 0
                   100) 100 sims);
    [cbn; lra | reflexivity | exact Hrun].
Defined.

(** X21. The auto-tune loop ends only on the controller's word: with a controller
    whose [run] never answers [True] the simulation never returns, and when
    the first [run] call answers [True] it returns at time 0 with the run of
    the set-up, nothing recorded, whatever the rest of the configuration. *)
Theorem autotune_returns_only_on_completion {A : Type} `{AutotuneController A}
    (args : Args) :
  ((forall c ts x, snd (run c ts x) = false) ->
   forall fuel r, @simulate_autotune A _ fuel args <> Some (Ret r)) /\
  (forall sim0,
     simulate_autotune_init args = Ret sim0 ->
     snd (run (sut sim0) 0 (kettle_temp args)) = true ->
     forall fuel,
       simulate_autotune (S fuel) args
       = Some (Ret (0, set_sut sim0
                         (fst (run (sut sim0) 0 (kettle_temp args)))))).
Proof.
  split.
  - intros Hnever fuel r. unfold simulate_autotune.
    destruct (simulate_autotune_init args) as [sim0|e]; [|discriminate].
    generalize 0 at 1. revert sim0.
    induction fuel as [|fuel IH]; intros sim ts;
      cbn [simulate_autotune_loop]; [discriminate|].
    unfold autotune_test.
    destruct (deque_getitem (delayed_temps sim) 0) as [observed|e];
      [|discriminate].
    cbn [bind]. specialize (Hnever (sut sim) ts observed).
    destruct (run (sut sim) ts observed) as [c done]. cbn [snd] in Hnever.
    subst done.
    destruct (autotune_body args ts (set_sut sim c)) as [[ts' sim']|e];
      [apply IH | discriminate].
  - intros sim0 Hinit Hdone fuel. unfold simulate_autotune. rewrite Hinit.
    apply simulate_autotune_init_run_inv in Hinit as (N & k0 & HN & _ & -> & _).
    pose proof (delayed_temps_len_Ret_inv _ _ HN) as (_ & _ & Hpos).
    cbn [simulate_autotune_loop]. unfold autotune_test, deque_getitem.
    cbn [delayed_temps items sut] in *.
    destruct N as [|N']; [lia|]. cbn [repeat nth_error bind].
    destruct (run _ 0 (kettle_temp args)) as [c done]. cbn [snd fst] in *.
    subst done. reflexivity.
Qed.

Lemma autotune_returns_only_on_completion_witness :
  exists sim,
    @simulate_autotune _ (CountdownTuner_autotune 0 50) 1 half_range_args
    = Some (Ret (0, sim)) /\ outputs sim = [].
Proof.
  destruct (@simulate_autotune_init _ (CountdownTuner_autotune 0 50)
              half_range_args) as [sim0|e] eqn:Hinit;
    [|vm_compute in Hinit; discriminate Hinit].
  pose proof (@simulate_autotune_init_run_inv _ (CountdownTuner_autotune 0 50)
                _ _ Hinit) as (N & k0 & _ & _ & Hsim0 & _).
  eexists. split.
  - apply (proj2 (@autotune_returns_only_on_completion
                    _ (CountdownTuner_autotune 0 50) half_range_args)
             sim0 Hinit).
    rewrite Hsim0. reflexivity.
  - rewrite Hsim0. reflexivity.
Defined.

(** * The export and the plot limits *)

Lemma list_getitem_in_range (l : list Q) (i : nat) :
  (i < length l)%nat -> list_getitem l i = Ret (nth i l 0).
Proof.
  intros Hi. unfold list_getitem. now rewrite (nth_error_nth' l 0 Hi).
Qed.

Lemma list_getitem_out_of_range (l : list Q) (i : nat) :
  (length l <= i)%nat -> list_getitem l i = Raise IndexError.
Proof.
  intros Hi. unfold list_getitem.
  now rewrite (proj2 (nth_error_None l i) Hi).
Qed.

Lemma mapM_pointwise {A B : Type} (f : A -> result B) (g : A -> B)
    (xs : list A) :
  (forall x, In x xs -> f x = Ret (g x)) -> mapM f xs = Ret (map g xs).
Proof.
  induction xs as [|x xs IH]; intros Hf; cbn [mapM map]; [reflexivity|].
  rewrite (Hf x (or_introl eq_refl)). cbn [bind].
  rewrite IH by (intros y Hy; apply Hf; now right). reflexivity.
Qed.

Lemma mapM_raises_at {A B : Type} (f : A -> result B) (g : A -> B)
    (xs : list A) (x : A) (ys : list A) (e : exn) :
  (forall y, In y xs -> f y = Ret (g y)) -> f x = Raise e ->
  mapM f (xs ++ x :: ys) = Raise e.
Proof.
  intros Hf Hx. induction xs as [|y xs IH]; cbn [mapM app].
  - now rewrite Hx.
  - rewrite (Hf y (or_introl eq_refl)). cbn [bind].
    rewrite IH by (intros z Hz; apply Hf; now right). reflexivity.
Qed.

Section WriteCsvFacts.
Variable format_row : Q -> Q -> Q -> Q -> string.

(** X22. [write_csv] names the file after the run and, when none of the three
    other sequences is shorter than [timestamps], writes the header and one
    row per timestamp, row [i] made of the four entries of index [i]; when
    one of them is shorter it raises [IndexError]. *)
Theorem write_csv_rows_or_index_error {St : Type} (sim : Simulation St) :
  let n := length (timestamps sim) in
  ((n <= length (outputs sim))%nat /\ (n <= length (sensor_temps sim))%nat /\
   (n <= length (heater_temps sim))%nat ->
   write_csv format_row sim
   = Ret ((name sim ++ ".csv")%string,
          csv_header :: map (csv_row format_row sim) (seq 0 n))) /\
  ((length (outputs sim) < n)%nat \/ (length (sensor_temps sim) < n)%nat \/
   (length (heater_temps sim) < n)%nat ->
   write_csv format_row sim = Raise IndexError).
Proof.
  intros n. split.
  - intros (Ho & Hs & Hh). unfold write_csv. fold n.
    rewrite (mapM_pointwise _ (csv_row format_row sim)); [reflexivity|].
    intros i Hi. apply in_seq in Hi.
    rewrite !list_getitem_in_range by (fold n; lia). reflexivity.
  - intros Hshort. unfold write_csv. fold n.
    set (m := Nat.min (length (outputs sim))
                (Nat.min (length (sensor_temps sim))
                         (length (heater_temps sim)))).
    assert (Hm : (m < n)%nat) by lia.
    replace (seq 0 n) with (seq 0 m ++ m :: seq (S m) (n - S m)).
    + rewrite (mapM_raises_at _ (csv_row format_row sim) _ _ _ IndexError); [reflexivity| |].
      * intros i Hi. apply in_seq in Hi.
        rewrite !list_getitem_in_range by (fold n; lia). reflexivity.
      * rewrite (list_getitem_in_range (timestamps sim)) by (fold n; lia).
        cbn [bind].
        destruct (Nat.lt_ge_cases m (length (outputs sim))) as [Ho | Ho];
          [|now rewrite list_getitem_out_of_range].
        rewrite (list_getitem_in_range (outputs sim)) by exact Ho. cbn [bind].
        destruct (Nat.lt_ge_cases m (length (sensor_temps sim))) as [Hs | Hs];
          [|now rewrite list_getitem_out_of_range].
        rewrite (list_getitem_in_range (sensor_temps sim)) by exact Hs.
        cbn [bind]. rewrite list_getitem_out_of_range by lia. reflexivity.
    + change (seq 0 m ++ m :: seq (S m) (n - S m))
        with (seq 0 m ++ seq (0 + m) (S (n - S m))).
      rewrite <- seq_app. f_equal. lia.
Qed.

(** X23. A run returned by either simulation is exported without an error: the
    file holds the header and exactly one row per recorded step. *)
Theorem returned_runs_export_cleanly {C : Type} `{FeedbackController C}
    {A : Type} `{AutotuneController A} (args : Args) :
  let exported {St : Type} (sim : Simulation St) :=
    exists lines,
      write_csv format_row sim = Ret ((name sim ++ ".csv")%string, lines) /\
      hd_error lines = Some csv_header /\
      length lines = S (length (timestamps sim)) in
  (forall fuel (sims : list (Simulation C)),
     simulate_pid fuel args = Some (Ret sims) ->
     Forall (fun sim => exported sim) sims) /\
  (forall fuel ts (sim : Simulation A),
     simulate_autotune fuel args = Some (Ret (ts, sim)) -> exported sim).
Proof.
  intros exported.
  assert (Hexp : forall (St : Type) n (sim : Simulation St),
             record_lengths n sim -> exported St sim).
  { intros St n sim (Ht & Ho & Hs & Hh).
    eexists. split.
    - unfold write_csv.
      rewrite (mapM_pointwise _ (csv_row format_row sim)); [reflexivity|].
      intros i Hi. apply in_seq in Hi.
      rewrite !list_getitem_in_range by lia. reflexivity.
    - split; [reflexivity|]. cbn [length]. now rewrite length_map, length_seq. }
  split.
  - intros fuel sims Hrun.
    apply simulate_pid_run_state in Hrun as (N & k0 & n & ts & _ & _ & Hall & _).
    eapply Forall_impl; [|exact Hall]. intros sim Hsim.
    exact (Hexp _ n sim (run_state_length _ _ _ _ _ _ Hsim)).
  - intros fuel ts sim Hrun.
    apply simulate_autotune_run_state in Hrun as (N & k0 & n & _ & _ & _ & Hst).
    exact (Hexp _ n sim (run_state_length _ _ _ _ _ _ Hst)).
Qed.

End WriteCsvFacts.

Lemma write_csv_rows_or_index_error_witness :
  write_csv (fun _ _ _ _ => "row"%string)
    (mkSim "short"%string tt (Kettle.mk 1 40 1 1) (mkDeque 1 [40])
           [5; 10] [40; 40] [40; 40] [50])
  = Raise IndexError.
Proof.
  apply (proj2 (write_csv_rows_or_index_error (fun _ _ _ _ => "row"%string)
                  (mkSim "short"%string tt (Kettle.mk 1 40 1 1) (mkDeque 1 [40])
                         [5; 10] [40; 40] [40; 40] [50]))).
  left. cbn. lia.
Defined.

(** ** The limits of the temperature axis *)

Lemma py_max_ge_l (a b : Q) : a <= py_max a b.
Proof.
  unfold py_max. destruct (Qcompare_spec a b) as [E | E | E]; lra.
Qed.

Lemma py_max_cases (a b : Q) : py_max a b = a \/ py_max a b = b.
Proof. unfold py_max. destruct (Qcompare a b); auto. Qed.

Lemma fold_py_max_bounds (l : list Q) (x : Q) :
  x <= fold_left py_max l x /\
  Forall (fun t => t <= fold_left py_max l x) l /\
  (fold_left py_max l x = x \/ In (fold_left py_max l x) l).
Proof.
  revert x. induction l as [|y l IH]; intros x; cbn [fold_left].
  - split; [lra|]. split; [constructor | now left].
  - destruct (IH (py_max x y)) as (Hge & Hall & Hin).
    pose proof (py_max_ge_l x y) as Hx. pose proof (py_max_ge_r x y) as Hy.
    split; [lra|]. split.
    + constructor; [lra | exact Hall].
    + destruct Hin as [Heq | Hin]; [|right; now right].
      rewrite Heq. destruct (py_max_cases x y) as [-> | ->];
        [now left | right; now left].
Qed.

Lemma py_max_seq_bounds (l : list Q) (m : Q) :
  py_max_seq l = Some m -> Forall (fun t => t <= m) l /\ In m l.
Proof.
  destruct l as [|x l]; [discriminate|]. cbn [py_max_seq]. intros [= <-].
  destruct (fold_py_max_bounds l x) as (Hge & Hall & Hin).
  split; [constructor; assumption|].
  destruct Hin as [-> | Hin]; [now left | now right].
Qed.

Lemma plot_upper_limit_bounds {St : Type} (sims : list (Simulation St)) :
  forall u hi,
    plot_upper_limit u sims = Some hi ->
    u <= hi /\
    Forall (fun sim => Forall (fun t => t + 1 <= hi) (sensor_temps sim)) sims /\
    (hi = u \/
     exists sim t, In sim sims /\ In t (sensor_temps sim) /\ hi = t + 1).
Proof.
  induction sims as [|sim rest IH]; intros u hi Hrun; cbn [plot_upper_limit] in Hrun.
  - injection Hrun as <-. split; [lra|]. split; [constructor | now left].
  - destruct (py_max_seq (sensor_temps sim)) as [m|] eqn:Hm; [|discriminate].
    apply py_max_seq_bounds in Hm as (Hall & Hin).
    destruct (IH _ _ Hrun) as (Hge & Hrest & Hat).
    pose proof (py_max_ge_l u (m + 1)) as Hu.
    pose proof (py_max_ge_r u (m + 1)) as Hm1.
    split; [lra|]. split.
    + constructor; [|exact Hrest].
      eapply Forall_impl; [|exact Hall]. intros t Ht. cbn beta in Ht. lra.
    + destruct Hat as [Heq | (sim' & t & Hs & Ht & Heq)].
      * destruct (py_max_cases u (m + 1)) as [E | E]; rewrite E in Heq.
        -- now left.
        -- right. exists sim, m. split; [now left|]. split; assumption.
      * right. exists sim', t. split; [now right|]. split; assumption.
Qed.

Lemma plot_upper_limit_fails {St : Type} (sims : list (Simulation St)) (u : Q) :
  plot_upper_limit u sims = None <->
  Exists (fun sim => sensor_temps sim = []) sims.
Proof.
  revert u. induction sims as [|sim rest IH]; intros u; cbn [plot_upper_limit].
  - split; [discriminate | intros Hex; inversion Hex].
  - destruct (sensor_temps sim) as [|t l] eqn:Hs; cbn [py_max_seq].
    + split; [intros _; now left | reflexivity].
    + rewrite IH. split; [intros Hex; now right|].
      intros Hex. inversion Hex as [? ? Hnil | ? ? Hrest]; subst;
        [congruence | exact Hrest].
Qed.

(** X24. The plot fails with [ValueError] exactly when one of the runs has no
    sensor sample; in particular a feedback simulation whose interval is not
    positive returns runs that cannot be plotted. *)
Theorem plot_fails_exactly_on_empty_run {C : Type} `{FeedbackController C}
    (args : Args) :
  (forall (St : Type) (sims : list (Simulation St)),
     plot_ylim args sims = None <->
     Exists (fun sim => sensor_temps sim = []) sims) /\
  (forall fuel (sims : list (Simulation C)),
     (interval args <= 0)%Z -> pid args <> [] ->
     simulate_pid fuel args = Some (Ret sims) ->
     plot_ylim args sims = None).
Proof.
  assert (Hfail : forall (St : Type) (sims : list (Simulation St)),
             plot_ylim args sims = None <->
             Exists (fun sim => sensor_temps sim = []) sims).
  { intros St sims. rewrite <- (plot_upper_limit_fails sims 0).
    unfold plot_ylim. destruct (plot_upper_limit 0 sims) as [u|].
    - destruct (Qlt_le_dec (setpoint args) u); split; discriminate.
    - split; reflexivity. }
  split; [exact Hfail|].
  intros fuel sims Hint Hpid Hrun. apply Hfail.
  unfold simulate_pid in Hrun.
  destruct (simulate_pid_init args) as [sims0|e] eqn:Hinit; [|discriminate].
  apply simulate_pid_init_run_state in Hinit as (N & k0 & _ & Hlen & Hall & _).
  assert (Hsame : sims = sims0).
  { destruct fuel; cbn [simulate_pid_loop] in Hrun;
      destruct (Qlt_le_dec 0 (inject_Z (interval args * 60))) as [Hlt | Hge];
      try (injection Hrun as <-; reflexivity);
      exfalso; change 0 with (inject_Z 0) in Hlt; rewrite <- Zlt_Qlt in Hlt;
      lia. }
  subst sims0. destruct sims as [|sim rest];
    [destruct (pid args); [contradiction | discriminate]|].
  left. inversion Hall as [|? ? (Hsim & _) _]; subst.
  destruct Hsim as ((_ & _ & Hs & _) & _). exact Hs.
Qed.

Lemma plot_fails_exactly_on_empty_run_witness :
  exists sims,
    @simulate_pid _ (ConstPID_feedback 50) 3
      (mkArgs [("a"%string, 0, 0, 0)] 40 45 20 0 15 5 70 50 5 6 1 0 100)
    = Some (Ret sims) /\
    plot_ylim (mkArgs [("a"%string, 0, 0, 0)] 40 45 20 0 15 5 70 50 5 6 1 0 100)
      sims = None.
Proof.
  assert (Hr : returned
                 (@simulate_pid _ (ConstPID_feedback 50) 3
                    (mkArgs [("a"%string, 0, 0, 0)] 40 45 20 0 15 5 70 50 5 6 1
                            0 100)) = true) by (lazy; reflexivity).
  destruct (@simulate_pid _ (ConstPID_feedback 50) 3
              (mkArgs [("a"%string, 0, 0, 0)] 40 45 20 0 15 5 70 50 5 6 1 0
                      100)) as [[sims|e]|] eqn:Hrun; try discriminate Hr.
  exists sims. split; [reflexivity|].
  apply (proj2 (@plot_fails_exactly_on_empty_run _ (ConstPID_feedback 50)
                  (mkArgs [("a"%string, 0, 0, 0)] 40 45 20 0 15 5 70 50 5 6 1
                          0 100)) 3%nat sims);
    [cbn; lia | discriminate | exact Hrun].
Defined.

(** X25. When the plot sets the limits of the temperature axis, the lower
    limit is [setpoint - (upper_limit - setpoint)], the upper limit is above
    the setpoint, not negative, at least one degree above every sensor
    sample, and is 0 or a sample plus one; when it leaves the limits alone,
    the setpoint is not negative and every sample is at least one degree
    below it. *)
Theorem plot_window_mirrors_upper_limit {St : Type} (args : Args)
    (sims : list (Simulation St)) :
  (forall lo hi,
     plot_ylim args sims = Some (Some (lo, hi)) ->
     setpoint args < hi /\ lo = setpoint args - (hi - setpoint args) /\
     0 <= hi /\
     Forall (fun sim => Forall (fun t => t + 1 <= hi) (sensor_temps sim)) sims /\
     (hi = 0 \/
      exists sim t, In sim sims /\ In t (sensor_temps sim) /\ hi = t + 1)) /\
  (plot_ylim args sims = Some None ->
   0 <= setpoint args /\
   Forall (fun sim => Forall (fun t => t + 1 <= setpoint args)
                             (sensor_temps sim)) sims).
Proof.
  unfold plot_ylim.
  destruct (plot_upper_limit 0 sims) as [u|] eqn:Hu;
    [|split; [intros lo hi|]; discriminate].
  apply plot_upper_limit_bounds in Hu as (Hge & Hall & Hat).
  destruct (Qlt_le_dec (setpoint args) u) as [Hlt | Hle]; split.
  - intros lo hi [= <- <-]. split; [exact Hlt|]. split; [reflexivity|].
    split; [exact Hge|]. split; [exact Hall | exact Hat].
  - discriminate.
  - intros lo hi. discriminate.
  - intros _. split; [lra|].
    eapply Forall_impl; [|exact Hall]. intros sim Hsim.
    eapply Forall_impl; [|exact Hsim]. intros t Ht. cbn beta in Ht. lra.
Qed.

Lemma plot_window_mirrors_upper_limit_witness :
  plot_ylim scenario_args
    [mkSim "a"%string tt (Kettle.mk 1 40 1 1) (mkDeque 1 [40])
           [5; 10] [40; 47] [40; 47] [50; 50]]
  = Some (Some (45 - (48 - 45), 48)) /\ 45 < 48.
Proof.
  split; [reflexivity|].
  exact (proj1 (proj1 (plot_window_mirrors_upper_limit scenario_args
           [mkSim "a"%string tt (Kettle.mk 1 40 1 1) (mkDeque 1 [40])
                  [5; 10] [40; 47] [40; 47] [50; 50]])
           (45 - (48 - 45)) 48 eq_refl)).
Defined.

(** * Instances of the properties without a premise of their own *)

Lemma kettle_raises_exactly_on_zero_divisor_witness :
  Kettle.heat (Kettle.mk 0 40 1 0) 3 5 (98 # 100) = Raise ZeroDivisionError /\
  Kettle.cool (Kettle.mk (6979 # 100) 40 (95 # 100) 5) 0 20 1
  = Raise ZeroDivisionError.
Proof.
  split.
  - apply (proj1 (kettle_raises_exactly_on_zero_divisor
                    (Kettle.mk 0 40 1 0) 3 5 (98 # 100) 20 1)).
    reflexivity.
  - apply (proj1 (proj2 (kettle_raises_exactly_on_zero_divisor
                           (Kettle.mk (6979 # 100) 40 (95 # 100) 5)
                           3 0 (98 # 100) 20 1))).
    left. reflexivity.
Defined.

Lemma run_keeps_kettle_geometry_witness :
  exists ts sim k0,
    @simulate_autotune _ (CountdownTuner_autotune 4 50) 5 scenario_args
    = Some (Ret (ts, sim)) /\
    Kettle.__init__ 50 70 40 5 = Ret k0 /\
    Kettle._waterMass (kettle sim) = 70 * Kettle.DENSITY_WATER /\
    Kettle._kettleMass (kettle sim) = 5 /\
    Kettle._surface (kettle sim) = Kettle._surface k0.
Proof.
  assert (Hr : returned (@simulate_autotune _ (CountdownTuner_autotune 4 50) 5
                           scenario_args) = true) by (lazy; reflexivity).
  destruct (@simulate_autotune _ (CountdownTuner_autotune 4 50) 5 scenario_args)
    as [[[ts sim]|e]|] eqn:Hrun; try discriminate Hr.
  destruct (proj2 (@run_keeps_kettle_geometry
                     _ (ConstPID_feedback 50) _ (CountdownTuner_autotune 4 50)
                     scenario_args) 5%nat ts sim Hrun)
    as (k0 & Hk0 & Hw & Hm & Hs).
  exists ts, sim, k0. split; [reflexivity|]. split; [exact Hk0|].
  split; [exact Hw|]. split; [exact Hm | exact Hs].
Defined.

Lemma kettle_temperature_is_last_record_witness :
  exists ts sim,
    @simulate_autotune _ (CountdownTuner_autotune 4 50) 5 scenario_args
    = Some (Ret (ts, sim)) /\
    Kettle.temperature (kettle sim) = last (heater_temps sim) 40.
Proof.
  assert (Hr : returned (@simulate_autotune _ (CountdownTuner_autotune 4 50) 5
                           scenario_args) = true) by (lazy; reflexivity).
  destruct (@simulate_autotune _ (CountdownTuner_autotune 4 50) 5 scenario_args)
    as [[[ts sim]|e]|] eqn:Hrun; try discriminate Hr.
  destruct (proj2 (@kettle_temperature_is_last_record
                     _ (ConstPID_feedback 50) _ (CountdownTuner_autotune 4 50)
                     scenario_args) 5%nat ts sim Hrun) as (Hlast & _).
  exists ts, sim. split; [reflexivity | exact Hlast].
Defined.

Lemma returned_runs_export_cleanly_witness :
  exists ts sim lines,
    @simulate_autotune _ (CountdownTuner_autotune 4 50) 5 scenario_args
    = Some (Ret (ts, sim)) /\
    write_csv (fun _ _ _ _ => "row"%string) sim
    = Ret ((name sim ++ ".csv")%string, lines) /\
    length lines = S (length (timestamps sim)).
Proof.
  assert (Hr : returned (@simulate_autotune _ (CountdownTuner_autotune 4 50) 5
                           scenario_args) = true) by (lazy; reflexivity).
  destruct (@simulate_autotune _ (CountdownTuner_autotune 4 50) 5 scenario_args)
    as [[[ts sim]|e]|] eqn:Hrun; try discriminate Hr.
  destruct (proj2 (@returned_runs_export_cleanly (fun _ _ _ _ => "row"%string)
                     _ (ConstPID_feedback 50) _ (CountdownTuner_autotune 4 50)
                     scenario_args) 5%nat ts sim Hrun)
    as (lines & Hw & _ & Hlen).
  exists ts, sim, lines. split; [reflexivity|]. split; [exact Hw | exact Hlen].
Defined.
